(** * OSWebScrap: URL validation, HTML table / image extraction and
      Markdown rendering

    A shallow embedding of [src/OSWebScrap.py] ([is_valid_url],
    [scrape_visual_data] and the script entry point) and the properties
    the specification states about it.

    Conventions of the embedding.
    - A Python [str] is a [string]; the character with code [n] stands for
      the code point [n] (so the model covers code points below 256).
    - The parsed document ([BeautifulSoup(response.text, "html.parser")]) is
      a tree of [node]s; the parser itself is a library and is a parameter.
    - [requests.get], [urljoin] and [base64.b64encode] are library calls and
      are parameters too; the network may answer differently every time, so
      its answer depends on the list of requests made so far. [urljoin]
      raises [ValueError] on some inputs and so returns an option. The
      status of an image response is never looked at by the source, so it
      plays no role for images.
    - [a == b] on elements is the structural comparison of [bs4.Tag.__eq__].
    - Effects (requests made, objects put to S3, exceptions) are threaded
      through a small state-and-exception monad [M].
    - Of [src/api/main.py] the file embeds [scrape_url],
      [fetch_WebScrapMarkdowns_from_s3], [fetch_latest_markdown_downloads]
      and [check_pdf_constraints]; the S3 client, the file system and the
      PDF library are parameters that return a value or the text of the
      exception they raise. *)

From Stdlib Require Import Ascii String QArith Qcanon.
From stdpp Require Import base tactics option list strings gmap pretty.

Local Close Scope Q_scope.
Local Close Scope Qc_scope.
Local Open Scope string_scope.
Local Open Scope list_scope.
Set Warnings "-register-all".
Set Default Proof Using "Type".

(** ** Python string operations *)

Module PyStr.

(** The line feed character, written [\n] in the source. *)
Definition nl : string := String "010"%char "".

Definition code (c : ascii) : nat := nat_of_ascii c.

(** [str.isspace] on one code point below 256. *)
Definition isspace (c : ascii) : bool :=
  let n := code c in
  (((9 <=? n) && (n <=? 13)) || ((28 <=? n) && (n <=? 32))
   || (n =? 133) || (n =? 160))%nat.

(** [str.lower] on one code point below 256: [A-Z] and the Latin-1
    capitals (except the multiplication sign) move up by 32. *)
Definition lower_char (c : ascii) : ascii :=
  let n := code c in
  if (((65 <=? n) && (n <=? 90))
      || ((192 <=? n) && (n <=? 222) && negb (n =? 215)))%nat
  then ascii_of_nat (n + 32) else c.

Fixpoint lower (s : string) : string :=
  match s with
  | "" => ""
  | String c s' => String (lower_char c) (lower s')
  end.

(** [s.startswith(p)] *)
Fixpoint startswith (s p : string) {struct p} : bool :=
  match p, s with
  | "", _ => true
  | String a p', String b s' => bool_decide (a = b) && startswith s' p'
  | String _ _, "" => false
  end.

(** [s.endswith(p)]: [s] is [p], or the tail of [s] ends with [p]. *)
Fixpoint endswith (s p : string) : bool :=
  bool_decide (s = p) ||
  match s with
  | "" => false
  | String _ s' => endswith s' p
  end.

(** [s.lstrip()], [s.rstrip()], [s.strip()] *)
Fixpoint lstrip (s : string) : string :=
  match s with
  | "" => ""
  | String c s' => if isspace c then lstrip s' else s
  end.

Fixpoint rstrip (s : string) : string :=
  match s with
  | "" => ""
  | String c s' =>
      match rstrip s' with
      | "" => if isspace c then "" else String c ""
      | r => String c r
      end
  end.

Definition strip (s : string) : string := rstrip (lstrip s).

(** [sep.join(l)] *)
Fixpoint join (sep : string) (l : list string) : string :=
  match l with
  | [] => ""
  | [x] => x
  | x :: l' => x +:+ sep +:+ join sep l'
  end.

(** [s.replace(c, by)] for a pattern [c] of one character. *)
Fixpoint replace (c : ascii) (by_ : string) (s : string) : string :=
  match s with
  | "" => ""
  | String a s' =>
      if bool_decide (a = c) then by_ +:+ replace c by_ s'
      else String a (replace c by_ s')
  end.

(** Line boundaries of [str.splitlines] below code point 256. *)
Definition islinebreak (c : ascii) : bool :=
  let n := code c in
  (((10 <=? n) && (n <=? 13)) || ((28 <=? n) && (n <=? 30))
   || (n =? 133))%nat.

(** [s.splitlines()]: [cur] is the line read so far; a carriage return
    followed by a line feed is one boundary; no empty last line. *)
Fixpoint splitlines_go (cur : string) (s : string) : list string :=
  match s with
  | "" => if bool_decide (cur = "") then [] else [cur]
  | String c s' =>
      if islinebreak c then
        match s' with
        | String d s'' =>
            if bool_decide (c = "013"%char) && bool_decide (d = "010"%char)
            then cur :: splitlines_go "" s''
            else cur :: splitlines_go "" s'
        | "" => [cur]
        end
      else splitlines_go (cur +:+ String c "") s'
  end.

Definition splitlines (s : string) : list string := splitlines_go "" s.

(** [s.split("  ")]: split at each double space, left to right. *)
Fixpoint split_dspace_go (cur : string) (s : string) : list string :=
  match s with
  | "" => [cur]
  | String c s' =>
      match s' with
      | String d s'' =>
          if bool_decide (c = " "%char) && bool_decide (d = " "%char)
          then cur :: split_dspace_go "" s''
          else split_dspace_go (cur +:+ String c "") s'
      | "" => [cur +:+ String c ""]
      end
  end.

Definition split_dspace (s : string) : list string := split_dspace_go "" s.

(** [str(n)] for a non-negative integer, as an f-string prints it. *)
Definition str_of_nat (n : nat) : string := pretty n.

(** Number of positions of [s] at which [p] starts. *)
Fixpoint occurrences (p s : string) : nat :=
  (if startswith s p then 1 else 0) +
  match s with
  | "" => 0
  | String _ s' => occurrences p s'
  end.

End PyStr.

Import PyStr.

(** ** The parsed document (BeautifulSoup tree) *)

Module Soup.

(** An element with its tag name, attribute dictionary and children, or
    a run of text. A run of text is of class [NavigableString] (or
    [CData]), or of another class: a comment and the like, or one of the
    runs the parser makes inside [script], [style], [template], [rt] and
    [rp] elements ([Script], [Stylesheet], [TemplateString],
    [RubyTextString], [RubyParenthesisString]). *)
Inductive node : Type :=
| Tag (name : string) (attrs : gmap string string) (contents : list node)
| NavigableString (s : string)
| OtherString (s : string).

(** [tag.descendants]: every node below [n], in document order. *)
Fixpoint descendants (n : node) : list node :=
  match n with
  | Tag _ _ cs => flat_map (λ c, c :: descendants c) cs
  | NavigableString _ | OtherString _ => []
  end.

(** Is [n] an element whose name is one of [names]? *)
Definition has_name (names : list string) (n : node) : bool :=
  match n with
  | Tag nm _ _ => bool_decide (nm ∈ names)
  | NavigableString _ | OtherString _ => false
  end.

(** [tag.find_all(names)] and [tag.find(name)] *)
Definition find_all (names : list string) (n : node) : list node :=
  List.filter (has_name names) (descendants n).

Definition find (name : string) (n : node) : option node :=
  head (find_all [name] n).

(** [tag.get(key)] and [tag.get(key, default)] *)
Definition get (n : node) (key : string) : option string :=
  match n with
  | Tag _ a _ => a !! key
  | NavigableString _ | OtherString _ => None
  end.

Definition get_default (n : node) (key dflt : string) : string :=
  default dflt (get n key).

(** The text runs below [n] that [get_text] takes, in document order:
    those of class [NavigableString]; the runs of the other classes are
    left out. The source calls [get_text] on the document and on table
    cells, and for these elements this is the choice the library makes. *)
Definition strings (n : node) : list string :=
  omap (λ d, match d with
             | NavigableString s => Some s
             | Tag _ _ _ | OtherString _ => None
             end)
       (descendants n).

(** [tag.get_text()] *)
Definition get_text (n : node) : string := join "" (strings n).

(** [tag.get_text(strip=True)]: every run is stripped, runs that become
    empty are left out. *)
Definition get_text_strip (n : node) : string :=
  join "" (List.filter (λ s, negb (bool_decide (s = "")))
                       (strip <$> strings n)).

(** Are two lists equal element by element, for the test [eqb]? *)
Definition all2 {A} (eqb : A → A → bool) : list A → list A → bool :=
  fix go l1 l2 :=
    match l1, l2 with
    | [], [] => true
    | x :: l1', y :: l2' => eqb x y && go l1' l2'
    | _, _ => false
    end.

(** The text of a run of text, of whatever class. *)
Definition text_of (n : node) : option string :=
  match n with
  | Tag _ _ _ => None
  | NavigableString s | OtherString s => Some s
  end.

(** [a == b] on tree nodes: same name, same attributes and equal
    children, recursively; on text runs, the same text, whatever their
    classes. *)
Fixpoint node_eqb (a b : node) : bool :=
  match a, b with
  | Tag n1 a1 cs1, Tag n2 a2 cs2 =>
      bool_decide (n1 = n2) && bool_decide (a1 = a2)
      && all2 node_eqb cs1 cs2
  | _, _ =>
      match text_of a, text_of b with
      | Some s, Some t => bool_decide (s = t)
      | _, _ => false
      end
  end.

(** [for t in soup(names): t.extract()]: the tree without the elements
    named in [names]. *)
Fixpoint extract_all (names : list string) (n : node) : node :=
  match n with
  | NavigableString s => NavigableString s
  | OtherString s => OtherString s
  | Tag nm a cs =>
      Tag nm a
        ((fix go (l : list node) : list node :=
            match l with
            | [] => []
            | c :: l' =>
                if has_name names c then go l'
                else extract_all names c :: go l'
            end) cs)
  end.

End Soup.

Import Soup.

(** ** Effects: requests, uploads and exceptions *)

(** What [requests.get] returns when it does not raise. *)
Record response := {
  status_code : nat;
  text : string;     (* the decoded body *)
  content : string   (* the raw body *)
}.

(** The outside world as the program changes it: the URLs given to
    [requests.get] and the (key, body, content type) triples given to
    [s3.put_object], oldest first. *)
Record world := {
  requests : list string;
  puts : list (string * string * string)
}.

(** The world after one more request. *)
Definition requested (url : string) (w : world) : world :=
  {| requests := requests w ++ [url]; puts := puts w |}.

Inductive result (A : Type) : Type :=
| Ok (a : A)
| Raise.
Arguments Ok {A} a.
Arguments Raise {A}.

Definition M (A : Type) : Type := world → result A * world.

Definition ret {A} (a : A) : M A := λ w, (Ok a, w).

Definition raise {A} : M A := λ w, (Raise, w).

Definition bind {A B} (m : M A) (k : A → M B) : M B :=
  λ w, match m w with
       | (Ok a, w') => k a w'
       | (Raise, w') => (Raise, w')
       end.

(** [try: m except Exception: handler] *)
Definition try_except {A} (m : M A) (handler : M A) : M A :=
  λ w, match m w with
       | (Ok a, w') => (Ok a, w')
       | (Raise, w') => handler w'
       end.

Notation "'let*' x ':=' m 'in' k" := (bind m (λ x, k))
  (at level 10, x name, m at level 100, k at level 200, only parsing).

(** ** The program *)

Module OSWebScrap.

Definition DISALLOWED_EXTENSIONS : list string :=
  [".pdf"; ".xls"; ".xlsx"; ".doc"; ".docx"; ".ppt"; ".pptx"; ".zip"; ".rar"].

(** [is_valid_url(url)]; the printed messages are left out. *)
Definition is_valid_url (url : string) : bool :=
  if negb (startswith url "http://" || startswith url "https://") then false
  else if existsb (λ ext, endswith (lower url) ext) DISALLOWED_EXTENSIONS
  then false
  else true.

(** One entry of [tables]. *)
Record table := {
  headers : list string;
  rows : list (list string)
}.

(** [[cell.get_text(strip=True) for cell in row.find_all(["td", "th"])]] *)
Definition row_cells (row : node) : list node := find_all ["td"; "th"] row.

Definition row_texts (row : node) : list string :=
  get_text_strip <$> row_cells row.

Definition is_th (cell : node) : bool := has_name ["th"] cell.

(** Lines 94-105: the header row. *)
Definition extract_header (tbl : node) : list string :=
  let header_row := [] in
  let ths := find_all ["th"] tbl in
  let header_row :=
    if negb (bool_decide (ths = [])) then get_text_strip <$> ths
    else header_row in
  if bool_decide (header_row = []) then
    match find "tr" tbl with
    | Some first_row =>
        let cells := row_cells first_row in
        if negb (bool_decide (cells = [])) then get_text_strip <$> cells
        else header_row
    | None => header_row
    end
  else header_row.

(** Line 111: is this row skipped as the header already processed? *)
Definition skipped (first : node) (header_row : list string) (row : node)
  : bool :=
  node_eqb first row && negb (bool_decide (header_row = []))
  && forallb is_th (row_cells row).

(** Lines 109-116: the loop over the rows; [first] is [rows[0]]. *)
Fixpoint rows_loop (first : node) (header_row : list string)
    (trs : list node) (table_data : list (list string))
  : list (list string) :=
  match trs with
  | [] => table_data
  | row :: rest =>
      if skipped first header_row row
      then rows_loop first header_row rest table_data
      else
        let row_data := row_texts row in
        if negb (bool_decide (row_data = []))
        then rows_loop first header_row rest (table_data ++ [row_data])
        else rows_loop first header_row rest table_data
  end.

(** Lines 91-122: the entry built for one [<table>] element. *)
Definition extract_table (tbl : node) : table :=
  let header_row := extract_header tbl in
  let trs := find_all ["tr"] tbl in
  let table_data :=
    match trs with
    | [] => []
    | first :: _ => rows_loop first header_row trs []
    end in
  {| headers := header_row; rows := table_data |}.

(** Lines 124-133: the visible text. *)
Definition clean_text (soup : node) : string :=
  let soup := extract_all ["script"; "style"] soup in
  let text := get_text soup in
  let lines := strip <$> splitlines text in
  let chunks := strip <$> (lines ≫= split_dspace) in
  join nl (List.filter (λ chunk, negb (bool_decide (chunk = ""))) chunks).

(** Lines 71-75: the format put in the data URI. *)
Definition img_format_of (img_url : string) : string :=
  if endswith (lower img_url) ".png" then "png"
  else if endswith (lower img_url) ".gif" then "gif"
  else "jpeg".

(** Lines 146-149: the header line and the separator line. *)
Definition header_line (hs : list string) : string :=
  "| " +:+ join " | " hs +:+ " |" +:+ nl.

Definition separator_line (hs : list string) : string :=
  "| " +:+ join " | " ((λ _, "---") <$> hs) +:+ " |" +:+ nl.

(** Lines 154-155: [row.extend(...)] when the row is shorter than a
    non-empty header. *)
Definition pad_row (hs row : list string) : list string :=
  if negb (bool_decide (hs = [])) && (length row <? length hs)%nat
  then row ++ ((λ _, "") <$> seq 0 (length hs - length row))
  else row.

(** Line 157 *)
Definition sanitize (cell : string) : string := replace "|"%char "\|" cell.

(** Line 158 *)
Definition row_line (row : list string) : string :=
  "| " +:+ join " | " (sanitize <$> row) +:+ " |" +:+ nl.

(** Lines 152-158: the loop over the data rows. The rows are changed in
    place, so the loop gives back the rows as it leaves them and the
    text with the lines added. *)
Fixpoint render_rows (hs : list string) (rws : list (list string))
    (markdown_content : string) : list (list string) * string :=
  match rws with
  | [] => ([], markdown_content)
  | row :: rest =>
      let row := pad_row hs row in
      let markdown_content := markdown_content +:+ row_line row in
      let '(rest, markdown_content) := render_rows hs rest markdown_content in
      (row :: rest, markdown_content)
  end.

(** Lines 143-160: one table, numbered [idx]. *)
Definition render_table (idx : nat) (t : table) (markdown_content : string)
  : table * string :=
  let markdown_content :=
    markdown_content +:+ "### Table " +:+ str_of_nat idx +:+ nl +:+ nl in
  let hs := headers t in
  let markdown_content :=
    if negb (bool_decide (hs = [])) then
      (markdown_content +:+ header_line hs) +:+ separator_line hs
    else markdown_content in
  let '(rws, markdown_content) := render_rows hs (rows t) markdown_content in
  ({| headers := hs; rows := rws |}, markdown_content +:+ nl).

(** Line 142: [for idx, table in enumerate(tables, start=1)]. *)
Fixpoint render_tables (idx : nat) (tables : list table)
    (markdown_content : string) : list table * string :=
  match tables with
  | [] => ([], markdown_content)
  | t :: rest =>
      let '(t, markdown_content) := render_table idx t markdown_content in
      let '(rest, markdown_content) :=
        render_tables (S idx) rest markdown_content in
      (t :: rest, markdown_content)
  end.

(** Lines 165-167: [image['embedded']] raises when the key is missing. *)
Fixpoint render_images (idx : nat) (images : list (gmap string string))
    (markdown_content : string) : M string :=
  match images with
  | [] => ret markdown_content
  | image :: rest =>
      let alt_text := default ("Image " +:+ str_of_nat idx) (image !! "alt") in
      match image !! "embedded" with
      | Some embedded =>
          render_images (S idx) rest
            (markdown_content +:+ "![" +:+ alt_text +:+ "](" +:+ embedded
             +:+ ")" +:+ nl +:+ nl)
      | None => raise
      end
  end.

(** Lines 136-167: the Markdown text; also gives back the tables as the
    rendering leaves them. *)
Definition render (cleaned_text : string) (tables : list table)
    (images : list (gmap string string)) : M (list table * string) :=
  let markdown_content := "# Extracted Web Content" +:+ nl +:+ nl in
  let markdown_content :=
    markdown_content +:+ ("## Content" +:+ nl +:+ nl +:+ cleaned_text
                          +:+ nl +:+ nl) in
  let '(tables, markdown_content) :=
    if negb (bool_decide (tables = [])) then
      render_tables 1 tables (markdown_content +:+ "## Tables" +:+ nl +:+ nl)
    else (tables, markdown_content) in
  let* markdown_content :=
    if negb (bool_decide (images = [])) then
      render_images 1 images (markdown_content +:+ "## Images" +:+ nl +:+ nl)
    else ret markdown_content in
  ret (tables, markdown_content).

Definition markdown_s3_path : string :=
  "scraped_data/scraped_os_data/scraped_content.md".

Section Program.

(** The libraries and the outside world. *)
Variable network : list string → string → option response.
    (* the answer to a request, given the requests made before it;
       [None] when [requests.get] raises *)
Variable html_parser : string → node.
Variable urljoin : string → string → option string.
    (* [None] when [urljoin] raises [ValueError] *)
Variable b64encode : string → string.
Variable put_object : string → string → string → bool.
    (* does [s3.put_object] succeed? *)
Variables bucket_name aws_region : string.

(** [requests.get(url)] *)
Definition requests_get (url : string) : M response :=
  λ w,
    match network (requests w) url with
    | Some r => (Ok r, requested url w)
    | None => (Raise, requested url w)
    end.

(** [response.raise_for_status()] *)
Definition raise_for_status (r : response) : M unit :=
  if ((400 <=? status_code r) && (status_code r <? 600))%nat then raise
  else ret tt.

(** [upload_file_to_s3]: the exception of a failed upload is caught
    and [None] is returned. *)
Definition upload_file_to_s3 (file_content s3_path content_type : string)
  : M (option string) :=
  λ w,
    let w' := {| requests := requests w;
                 puts := puts w ++ [(s3_path, file_content, content_type)] |} in
    if put_object s3_path file_content content_type
    then (Ok (Some ("https://" +:+ bucket_name +:+ ".s3." +:+ aws_region
                    +:+ ".amazonaws.com/" +:+ s3_path)), w')
    else (Ok None, w').

(** Lines 67-86: the [try] block for one image. *)
Definition embed_image (idx : nat) (img_tag : node) (img_url : string)
    (images : list (gmap string string)) : M (list (gmap string string)) :=
  try_except
    (let* r := requests_get img_url in
     let img_data := content r in
     let img_format := img_format_of img_url in
     let img_base64 := b64encode img_data in
     let embedded_img :=
       "data:image/" +:+ img_format +:+ ";base64," +:+ img_base64 in
     let image : gmap string string :=
       <["embedded" := embedded_img]>
         {[ "alt" := get_default img_tag "alt"
                       ("Image " +:+ str_of_nat (idx + 1)) ]} in
     ret ((images ++ [image])%list))
    (ret images).

(** Lines 61-86: [for idx, img_tag in enumerate(img_tags)]. The call of
    [urljoin] of line 65 stands before the [try]: when it raises, the
    loop raises. *)
Fixpoint scrape_images (url : string) (idx : nat) (img_tags : list node)
    (images : list (gmap string string)) : M (list (gmap string string)) :=
  match img_tags with
  | [] => ret images
  | img_tag :: rest =>
      match get img_tag "src" with
      | None => scrape_images url (S idx) rest images
      | Some src =>
          if bool_decide (src = "")
          then scrape_images url (S idx) rest images
          else
            match urljoin url src with
            | None => raise
            | Some img_url =>
                let* images := embed_image idx img_tag img_url images in
                scrape_images url (S idx) rest images
            end
      end
  end.

(** [scrape_visual_data(url)] *)
Definition scrape_visual_data (url : string) : M string :=
  let* response := requests_get url in
  let* _ := raise_for_status response in
  let soup := html_parser (text response) in
  let img_tags := find_all ["img"] soup in
  let* images := scrape_images url 0 img_tags [] in
  let tables := extract_table <$> find_all ["table"] soup in
  let cleaned_text := clean_text soup in
  let* rendered := render cleaned_text tables images in
  let markdown_content := rendered.2 in
  let* _ := upload_file_to_s3 markdown_content markdown_s3_path
              "text/markdown" in
  ret markdown_s3_path.

(** [scrape_text_data_with_images(url)] *)
Definition scrape_text_data_with_images (url : string) : M string :=
  scrape_visual_data url.

(** How a run of the script ends. *)
Inductive outcome : Type :=
| Exited (status : nat)
| Printed (path : string)
| Uncaught.

(** The [__main__] block, on the line read from the terminal. *)
Definition main (line : string) : world → outcome * world :=
  λ w,
    let user_url := strip line in
    if negb (is_valid_url user_url) then (Exited 1, w)
    else
      match scrape_text_data_with_images user_url w with
      | (Ok path, w') => (Printed path, w')
      | (Raise, w') => (Uncaught, w')
      end.

End Program.

End OSWebScrap.

Import OSWebScrap.

(** ** What the specification says, where it differs from the code *)

Module Spec.

(** The part of [s] before the first character satisfying [stop]. *)
Fixpoint take_until (stop : ascii → bool) (s : string) : string :=
  match s with
  | "" => ""
  | String c s' => if stop c then "" else String c (take_until stop s')
  end.

(** The part of [s] from the first character satisfying [stop] on. *)
Fixpoint drop_until (stop : ascii → bool) (s : string) : string :=
  match s with
  | "" => ""
  | String c s' => if stop c then s else drop_until stop s'
  end.

Definition one_of (cs : string) (c : ascii) : bool :=
  bool_decide (c ∈ list_ascii_of_string cs).

(** The scheme of a URL: what stands before the first colon, in lower
    case. *)
Definition url_scheme (url : string) : string :=
  lower (take_until (one_of ":") url).

(** The path of a URL: what follows the scheme and the authority, up to
    the query or the fragment. *)
Definition url_path (url : string) : string :=
  let rest :=
    match drop_until (one_of ":") url with
    | String _ r => r
    | "" => ""
    end in
  let rest :=
    match rest with
    | String "/" (String "/" r) => drop_until (one_of "/?#") r
    | _ => rest
    end in
  take_until (one_of "?#") rest.

(** [validate(url)] in the words of the specification: the scheme is
    http or https and the path does not end in a disallowed extension,
    compared without regard to case. *)
Definition validate (url : string) : bool :=
  (bool_decide (url_scheme url = "http")
   || bool_decide (url_scheme url = "https"))
  && negb (existsb (λ ext, endswith (lower (url_path url)) ext)
                   DISALLOWED_EXTENSIONS).

(** A row with at least one cell. *)
Definition nonempty_row (r : list string) : bool :=
  negb (bool_decide (r = [])).

(** The specification's rule for the data rows: the row consumed as the
    header by position (no header cell in the table, a first row with
    cells) is skipped. *)
Definition skips_fallback_row (tbl : node) : Prop :=
  ∀ first rest,
    find_all ["th"] tbl = [] →
    find_all ["tr"] tbl = first :: rest →
    row_cells first ≠ [] →
    headers (extract_table tbl) = row_texts first ∧
    rows (extract_table tbl)
    = List.filter nonempty_row (row_texts <$> rest).

(** The specification's rule for pipes: no cell is rendered with a
    pipe that has no backslash before it. *)
Fixpoint pipes_escaped (s : string) : bool :=
  match s with
  | "" => true
  | String "|" _ => false
  | String "\" (String "|" s') => pipes_escaped s'
  | String _ s' => pipes_escaped s'
  end.

(** ** Closed forms of the rendered text *)

(** The strings of a list one after the other. *)
Definition cat (l : list string) : string := foldr String.app "" l.

(** The title and the Content section. *)
Definition content_section (cleaned_text : string) : string :=
  "# Extracted Web Content" +:+ nl +:+ nl +:+ "## Content" +:+ nl +:+ nl
  +:+ cleaned_text +:+ nl +:+ nl.

(** A table as the rendering leaves it: every row padded. *)
Definition padded (t : table) : table :=
  {| headers := headers t; rows := pad_row (headers t) <$> rows t |}.

(** The subsection of the table numbered [idx]. *)
Definition table_text (idx : nat) (t : table) : string :=
  "### Table " +:+ str_of_nat idx +:+ nl +:+ nl
  +:+ (if bool_decide (headers t = []) then ""
       else header_line (headers t) +:+ separator_line (headers t))
  +:+ cat (row_line <$> rows (padded t)) +:+ nl.

Definition tables_section (tables : list table) : string :=
  if bool_decide (tables = []) then ""
  else "## Tables" +:+ nl +:+ nl
       +:+ cat (imap (λ i t, table_text (S i) t) tables).

(** An entry of [images] as the scraping builds it. *)
Definition well_formed (image : gmap string string) : Prop :=
  is_Some (image !! "embedded") ∧ is_Some (image !! "alt").

(** The line of one image, for its alt text and data URI as stored. *)
Definition image_text (image : gmap string string) : string :=
  "![" +:+ default "" (image !! "alt") +:+ "]("
  +:+ default "" (image !! "embedded") +:+ ")" +:+ nl +:+ nl.

Definition images_section (images : list (gmap string string)) : string :=
  if bool_decide (images = []) then ""
  else "## Images" +:+ nl +:+ nl +:+ cat (image_text <$> images).

(** The alt text the specification gives the image at position [i]
    (counted from 0) among the [<img>] elements of the document. *)
Definition alt_for (i : nat) (img_tag : node) : string :=
  match get img_tag "alt" with
  | Some a => a
  | None => "Image " +:+ str_of_nat (i + 1)
  end.

End Spec.

Import Spec.

(** ** Sample documents *)

Module Samples.

Definition el (name : string) (cs : list node) : node := Tag name ∅ cs.
Definition txt (s : string) : node := NavigableString s.

(** [<table><tr><th>A</th><th>B</th></tr><tr><td>1</td></tr></table>] *)
Definition table_th : node :=
  el "table" [el "tr" [el "th" [txt "A"]; el "th" [txt "B"]];
              el "tr" [el "td" [txt "1"]]].

(** [<table><tr><td>A</td></tr><tr><td>1</td></tr></table>] *)
Definition table_td : node :=
  el "table" [el "tr" [el "td" [txt "A"]]; el "tr" [el "td" [txt "1"]]].

(** [<table><tr><th>a|b</th></tr><tr><td>c|d</td></tr></table>] *)
Definition table_pipe : node :=
  el "table" [el "tr" [el "th" [txt "a|b"]]; el "tr" [el "td" [txt "c|d"]]].


(** [<img src="a.png" alt="logo">] and [<img src="b.webp">] *)
Definition img_with_alt : node :=
  Tag "img" (<["src" := "a.png"]> {["alt" := "logo"]}) [].
Definition img_no_alt : node := Tag "img" {["src" := "b.webp"]} [].
Definition img_no_src : node := Tag "img" ∅ [].

(** A network on which every request is answered with status 200, one
    on which nothing can be reached, and one on which only the page
    itself can be reached. *)
Definition ok_response : response :=
  {| status_code := 200; text := "<html>"; content := "bytes" |}.
Definition net_up : list string → string → option response :=
  λ _ _, Some ok_response.
Definition net_down : list string → string → option response :=
  λ _ _, None.
Definition net_page_only : list string → string → option response :=
  λ history _, if bool_decide (history = []) then Some ok_response else None.

Definition join_url (base rel : string) : option string := Some (base +:+ rel).

(** A [urljoin] that raises on a source beginning with [//[], and an
    element with such a source. *)
Definition strict_join_url (base rel : string) : option string :=
  if startswith rel "//[" then None else Some (base +:+ rel).
Definition img_bad_src : node := Tag "img" {["src" := "//["]} [].

(** Two pages: [<html><img src="a.png" alt="logo"></html>] and
    [<html><img src="//["></html>]. *)
Definition page_logo : node := el "html" [img_with_alt].
Definition page_bad_src : node := el "html" [img_bad_src].

(** A network that answers the first request with status 200 and every
    later one with status 404 and the body of an error page. *)
Definition not_found : response :=
  {| status_code := 404; text := "Not Found"; content := "Not Found" |}.
Definition net_images_missing : list string → string → option response :=
  λ history _, if bool_decide (history = []) then Some ok_response
               else Some not_found.
Definition net_page_missing : list string → string → option response :=
  λ _ _, Some not_found.

Definition no_encoding (data : string) : string := data.
Definition put_ok : string → string → string → bool := λ _ _ _, true.
Definition w0 : world := {| requests := []; puts := [] |}.

End Samples.

(** ** The web API ([src/api/main.py]) *)

Module Api.

Definition MAX_FILE_SIZE_MB : Z := 5.
Definition MAX_PAGE_COUNT : Z := 5.

(** An exception inside a handler: an [HTTPException], or any other
    exception, kept with the text [str(e)] gives for it. *)
Inductive exception : Type :=
| HTTPException (status_code : nat) (detail : string)
| LibraryError (message : string).

(** A computation that returns or raises. *)
Definition E (A : Type) : Type := (exception + A)%type.

Definition ebind {A B} (m : E A) (k : A → E B) : E B :=
  match m with
  | inl e => inl e
  | inr a => k a
  end.

Notation "'let?' x ':=' m 'in' k" := (ebind m (λ x, k))
  (at level 10, x name, m at level 100, k at level 200, only parsing).

(** A library call that fails with a message, as an exception. *)
Definition call {A} (r : string + A) : E A :=
  match r with
  | inl message => inl (LibraryError message)
  | inr a => inr a
  end.

(** One entry of [response["Contents"]]; [LastModified] is a point in
    time. *)
Record s3_object := {
  Key : string;
  LastModified : nat
}.

(** What [s3_client.list_objects_v2] returns; each key may be absent. *)
Record listing := {
  Contents : option (list s3_object);
  CommonPrefixes : option (list string)
}.

(** [key.split("/")[-1]]: what follows the last slash. *)
Fixpoint last_segment_go (cur : string) (s : string) : string :=
  match s with
  | "" => cur
  | String c s' =>
      if bool_decide (c = "/"%char) then last_segment_go "" s'
      else last_segment_go (cur +:+ String c "") s'
  end.

Definition last_segment (s : string) : string := last_segment_go "" s.

(** Lines 614-620 and 476-482: the loop that keeps the newest Markdown
    object seen so far. What is remembered of the object is its key in
    the first loop ([latest_file = obj["Key"]]) and the folder being
    visited in the second ([latest_folder = folder]); [remember] says
    which. *)
Fixpoint latest_markdown {A} (remember : s3_object → A)
    (contents : list s3_object)
    (latest : option A) (latest_time : option nat)
  : option A * option nat :=
  match contents with
  | [] => (latest, latest_time)
  | obj :: rest =>
      if endswith (Key obj) ".md" then
        let last_modified := LastModified obj in
        if match latest_time with
           | None => true
           | Some t => (t <? last_modified)%nat
           end
        then latest_markdown remember rest (Some (remember obj))
               (Some last_modified)
        else latest_markdown remember rest latest latest_time
      else latest_markdown remember rest latest latest_time
  end.

(** The body returned by [fetch_WebScrapMarkdowns_from_s3]. *)
Record markdown_link := {
  message : string;
  file_name : string;
  download_url : string
}.

(** One entry of [markdown_download_links] and the body returned by
    [fetch_latest_markdown_downloads]. *)
Record download_link := {
  link_file_name : string;
  link_download_url : string
}.

Record markdown_downloads := {
  downloads_message : string;
  latest_folder : string;
  markdown_download_links : list download_link
}.

(** The body returned by [scrape_url]. *)
Record scrape_response := {
  scrape_message : string;
  response_markdown_s3_path : string;
  final_markdown_s3_path : string
}.

(** How a handler ends: with a body, with an [HTTPException], or with an
    exception nothing in the handler catches. *)
Inductive reply (A : Type) : Type :=
| Responded (body : A)
| Failed (status_code : nat) (detail : string)
| Unhandled.
Arguments Responded {A} body.
Arguments Failed {A} status_code detail.
Arguments Unhandled {A}.

(** A value stored in the dictionary [check_pdf_constraints] returns. *)
Inductive value : Type :=
| VStr (s : string)
| VBool (b : bool).

(** [convert_to_markdown(data)] of [OSWebScrap.py], on any argument. *)
Definition convert_to_markdown {A} (data : A) : string :=
  "scraped_data/scraped_os_data/scraped_content.md".

Section Handlers.

(** The libraries and the outside world of [OSWebScrap.py]. *)
Variable network : list string → string → option response.
Variable html_parser : string → node.
Variable urljoin : string → string → option string.
Variable b64encode : string → string.
Variable put_object : string → string → string → bool.
Variables bucket_name aws_region : string.

(** [is_valid_url] as [main.py] imports it, from a module that is not
    among the source files. *)
Variable enterprise_is_valid_url : string → bool.

(** The S3 client: the listing for a prefix and an optional delimiter, and
    the signed URL for a key; [inl] is the text of the exception raised.
    The bucket does not change while a request is handled. *)
Variable list_objects_v2 : string → option string → string + listing.
Variable generate_presigned_url : string → string + string.

(** [str(e)] for an [HTTPException], which depends on the version of the
    framework. *)
Variable str_of_http_exception : nat → string → string.

(** The file system and the PDF library: the size of a file in bytes and
    the number of pages of a document, or the text of the exception. *)
Variable getsize : string → string + Z.
Variable page_count : string → string + Z.

(** The two messages of [check_pdf_constraints], for a size in bytes and
    a number of pages; the first prints the size in megabytes with two
    decimals. *)
Variable file_too_large_message : Z → string.
Variable too_many_pages_message : Z → string.

Definition str (e : exception) : string :=
  match e with
  | HTTPException status_code detail => str_of_http_exception status_code detail
  | LibraryError message => message
  end.

(** Lines 568-588: [scrape_url]. The page is scraped twice; the exceptions
    of the scraping are not caught. *)
Definition scrape_url (url : string)
  : world → reply scrape_response * world :=
  λ w,
    if negb (enterprise_is_valid_url url) then (Failed 400 "Invalid URL", w)
    else
      match scrape_text_data_with_images network html_parser urljoin
              b64encode put_object bucket_name aws_region url w with
      | (Raise, w1) => (Unhandled, w1)
      | (Ok markdown_s3_path, w1) =>
          match scrape_visual_data network html_parser urljoin b64encode
                  put_object bucket_name aws_region url w1 with
          | (Raise, w2) => (Unhandled, w2)
          | (Ok visual_data, w2) =>
              let final_markdown_s3_path := convert_to_markdown visual_data in
              (Responded
                 {| scrape_message := "Scraping completed successfully";
                    response_markdown_s3_path := markdown_s3_path;
                    final_markdown_s3_path := final_markdown_s3_path |},
               w2)
          end
      end.

(** Lines 596-636: the [try] block of [fetch_WebScrapMarkdowns_from_s3]. *)
Definition fetch_WebScrapMarkdowns_body (service_type : string)
  : E markdown_link :=
  let? s3_folder :=
    if bool_decide (service_type = "Open Source")
    then inr "scraped_data/scraped_os_data/"
    else if bool_decide (service_type = "Enterprise")
    then inr "scraped_data/scraped_en_data/"
    else inl (HTTPException 400
                "Invalid service type! Choose 'Open Source' or 'Enterprise'.") in
  let? response := call (list_objects_v2 s3_folder None) in
  match Contents response with
  | None | Some [] =>
      inl (HTTPException 404
             ("No markdown files found in S3 for " +:+ service_type +:+ "."))
  | Some contents =>
      match (latest_markdown Key contents None None).1 with
      | None =>
          inl (HTTPException 404
                 ("No markdown files found in " +:+ service_type +:+ " folder."))
      | Some latest_file =>
          let? download_url := call (generate_presigned_url latest_file) in
          inr {| message := "Fetched latest markdown file for "
                            +:+ service_type +:+ ".";
                 file_name := last_segment latest_file;
                 download_url := download_url |}
      end
  end.

(** Lines 595-639: every exception of the block, the [HTTPException]s
    included, is answered with status 500. *)
Definition fetch_WebScrapMarkdowns_from_s3 (service_type : string)
  : reply markdown_link :=
  match fetch_WebScrapMarkdowns_body service_type with
  | inr body => Responded body
  | inl e => Failed 500 ("Failed to fetch markdown downloads: " +:+ str e)
  end.

(** Lines 469-482: the loop over the subfolders. *)
Fixpoint latest_folder_loop (subfolders : list string)
    (latest_folder : option string) (latest_time : option nat)
  : E (option string * option nat) :=
  match subfolders with
  | [] => inr (latest_folder, latest_time)
  | folder :: rest =>
      let? folder_response := call (list_objects_v2 folder None) in
      match Contents folder_response with
      | None => latest_folder_loop rest latest_folder latest_time
      | Some contents =>
          let '(latest_folder, latest_time) :=
            latest_markdown (λ _, folder) contents latest_folder latest_time in
          latest_folder_loop rest latest_folder latest_time
      end
  end.

(** Lines 496-508: one link for every file. *)
Fixpoint download_links (markdown_files : list string)
    (markdown_download_links : list download_link)
  : E (list download_link) :=
  match markdown_files with
  | [] => inr markdown_download_links
  | file_key :: rest =>
      let? download_url := call (generate_presigned_url file_key) in
      download_links rest
        (markdown_download_links
         ++ [ {| link_file_name := last_segment file_key;
                 link_download_url := download_url |} ])
  end.

(** Lines 450-514: the [try] block of [fetch_latest_markdown_downloads].
    A key missing from a response raises a [KeyError], whose text is the
    name of the key in quotes. *)
Definition fetch_latest_markdown_downloads_body : E markdown_downloads :=
  let s3_base_folder := "pdf_processing_pipeline/markdown_outputs/" in
  let? response := call (list_objects_v2 s3_base_folder (Some "/")) in
  match CommonPrefixes response with
  | None => inl (HTTPException 404 "No markdown folders found in S3.")
  | Some [] => inl (HTTPException 404 "No markdown subfolders found in S3.")
  | Some subfolders =>
      let? found := latest_folder_loop subfolders None None in
      match found.1 with
      | None =>
          inl (HTTPException 404 "No markdown files found in subfolders.")
      | Some latest_folder =>
          let? latest_folder_response :=
            call (list_objects_v2 latest_folder None) in
          match Contents latest_folder_response with
          | None => inl (LibraryError "'Contents'")
          | Some contents =>
              let markdown_files :=
                Key <$> List.filter (λ obj, endswith (Key obj) ".md") contents in
              if bool_decide (markdown_files = []) then
                inl (HTTPException 404
                       "No markdown files available for download.")
              else
                let? links := download_links markdown_files [] in
                inr {| downloads_message :=
                         "Fetched Markdown downloads from the latest subfolder: "
                         +:+ latest_folder;
                       latest_folder := latest_folder;
                       markdown_download_links := links |}
          end
      end
  end.

(** Lines 449-517 *)
Definition fetch_latest_markdown_downloads : reply markdown_downloads :=
  match fetch_latest_markdown_downloads_body with
  | inr body => Responded body
  | inl e => Failed 500 ("Failed to fetch markdown downloads: " +:+ str e)
  end.

(** Lines 123-142: the [try] block of [check_pdf_constraints]. The size
    in megabytes is the size in bytes divided by [1024 * 1024], a
    division by a power of two, which loses nothing. *)
Definition check_pdf_constraints_body (pdf_path : string)
  : E (gmap string value) :=
  let? pdf_size := call (getsize pdf_path) in
  let pdf_size_mb : Qc := (Qc_of_Z pdf_size / Qc_of_Z (1024 * 1024))%Qc in
  let? pdf_page_count := call (page_count pdf_path) in
  if bool_decide (Qc_of_Z MAX_FILE_SIZE_MB < pdf_size_mb)%Qc then
    inr {[ "error" := VStr (file_too_large_message pdf_size) ]}
  else if bool_decide (MAX_PAGE_COUNT < pdf_page_count)%Z then
    inr {[ "error" := VStr (too_many_pages_message pdf_page_count) ]}
  else inr {[ "success" := VBool true ]}.

(** Lines 119-145: [check_pdf_constraints]. Line 145 reads
    [return {"error": ...}@app.get("/")]: the handler of the exceptions
    builds the dictionary, applies the operator [@] to it and to a
    function, and so raises a [TypeError] instead of returning. *)
Definition check_pdf_constraints (pdf_path : string) : E (gmap string value) :=
  match check_pdf_constraints_body pdf_path with
  | inr result => inr result
  | inl e =>
      inl (LibraryError
             "unsupported operand type(s) for @: 'dict' and 'function'")
  end.

End Handlers.

End Api.

Import Api.

(** ** Notions used to state properties of the program *)

Module Notions.

(** The source of an [<img>] element, when it has a non-empty one. *)
Definition source_of (img_tag : node) : option string :=
  match get img_tag "src" with
  | Some src => if bool_decide (src = "") then None else Some src
  | None => None
  end.

(** Does [urljoin] give a URL for the source of the element, if it has
    one? *)
Definition resolves (urljoin : string → string → option string)
    (url : string) (img_tag : node) : Prop :=
  match source_of img_tag with
  | Some src => is_Some (urljoin url src)
  | None => True
  end.

(** The image URLs of a list of [<img>] elements, in order. *)
Definition image_urls (urljoin : string → string → option string)
    (url : string) (img_tags : list node) : list string :=
  omap (λ img_tag, source_of img_tag ≫= urljoin url) img_tags.

(** The answers of the network to the requests for [urls], made one after
    the other after the requests of [history]. *)
Fixpoint answers (network : list string → string → option response)
    (history : list string) (urls : list string) : list (option response) :=
  match urls with
  | [] => []
  | u :: rest => network history u :: answers network (history ++ [u]) rest
  end.

(** The elements with a source, each with its position in the list of all
    elements, counted from [idx]. *)
Definition with_source (idx : nat) (img_tags : list node)
  : list (nat * node) :=
  List.filter (λ it, bool_decide (is_Some (source_of it.2)))
    (zip (seq idx (length img_tags)) img_tags).

(** The entry built for an image whose request was answered with [r]. *)
Definition image_entry (b64encode : string → string) (img_url : string)
    (idx : nat) (img_tag : node) (r : response) : gmap string string :=
  <["embedded" := "data:image/" +:+ img_format_of img_url +:+ ";base64,"
                  +:+ b64encode (content r)]>
    {[ "alt" := alt_for idx img_tag ]}.

(** The characters of a string. *)
Definition chars (s : string) : list ascii := list_ascii_of_string s.

(** A string without leading and trailing white space. *)
Definition trimmed (s : string) : Prop := strip s = s.

(** A line of the cleaned text: not empty, trimmed, without a line
    break. *)
Definition clean_line (s : string) : Prop :=
  s ≠ "" ∧ trimmed s ∧ Forall (λ c, islinebreak c = false) (chars s).

(** Is the object a Markdown file? *)
Definition is_markdown (obj : s3_object) : bool := endswith (Key obj) ".md".

(** The Markdown objects of the subfolders, as the bucket lists them. *)
Definition listed_markdown
    (list_objects_v2 : string → option string → string + listing)
    (subfolders : list string) (o : s3_object) : Prop :=
  ∃ folder response contents,
    folder ∈ subfolders ∧
    list_objects_v2 folder None = inr response ∧
    Contents response = Some contents ∧
    o ∈ contents ∧ is_markdown o = true.

End Notions.

Import Notions.

(** ** Sample buckets and files *)

Module ApiSamples.

Definition old_notes : s3_object :=
  {| Key := "scraped_data/scraped_os_data/old.md"; LastModified := 10 |}.
Definition new_notes : s3_object :=
  {| Key := "scraped_data/scraped_os_data/new.md"; LastModified := 20 |}.
Definition picture : s3_object :=
  {| Key := "scraped_data/scraped_os_data/picture.png"; LastModified := 30 |}.

(** A bucket with two Markdown files and a picture under the folder of
    the open source scraper, whatever the prefix asked for. *)
Definition bucket : string → option string → string + listing :=
  λ _ _, inr {| Contents := Some [old_notes; new_notes; picture];
                CommonPrefixes := None |}.

(** A bucket of converted documents: two job folders below the base
    folder, the second with the newest Markdown file. *)
Definition job1 : string := "pdf_processing_pipeline/markdown_outputs/job1/".
Definition job2 : string := "pdf_processing_pipeline/markdown_outputs/job2/".

Definition jobs_bucket : string → option string → string + listing :=
  λ prefix delimiter,
    if bool_decide (delimiter = Some "/") then
      inr {| Contents := None; CommonPrefixes := Some [job1; job2] |}
    else if bool_decide (prefix = job1) then
      inr {| Contents := Some [ {| Key := job1 +:+ "a.md"; LastModified := 5 |} ];
             CommonPrefixes := None |}
    else
      inr {| Contents := Some [ {| Key := job2 +:+ "b.md"; LastModified := 7 |};
                                {| Key := job2 +:+ "b.png"; LastModified := 9 |} ];
             CommonPrefixes := None |}.

Definition presign : string → string + string :=
  λ key, inr ("https://signed/" +:+ key).

Definition str_http : nat → string → string := λ _ detail, detail.

Definition accept_all : string → bool := λ _, true.
Definition refuse_all : string → bool := λ _, false.

(** A file of exactly five megabytes with five pages, and one byte more. *)
Definition size_at_limit : string → string + Z := λ _, inr (5 * 1024 * 1024)%Z.
Definition size_over_limit : string → string + Z :=
  λ _, inr (5 * 1024 * 1024 + 1)%Z.
Definition five_pages : string → string + Z := λ _, inr 5%Z.
Definition unreadable : string → string + Z := λ _, inl "cannot open file".
Definition any_message : Z → string := λ _, "".

End ApiSamples.

(** * Properties *)

Section Properties.

Variable network : list string → string → option response.
Variable html_parser : string → node.
Variable urljoin : string → string → option string.
Variable b64encode : string → string.
Variable put_object : string → string → string → bool.
Variables bucket_name aws_region : string.

Local Abbreviation requests_get := (requests_get network) (only parsing).
Local Abbreviation embed_image := (embed_image network b64encode) (only parsing).
Local Abbreviation scrape_images :=
  (scrape_images network urljoin b64encode) (only parsing).
Local Abbreviation scrape_visual_data :=
  (scrape_visual_data network html_parser urljoin b64encode put_object
     bucket_name aws_region) (only parsing).
Local Abbreviation main :=
  (main network html_parser urljoin b64encode put_object
     bucket_name aws_region) (only parsing).

Variable enterprise_is_valid_url : string → bool.
Variable list_objects_v2 : string → option string → string + listing.
Variable generate_presigned_url : string → string + string.
Variable str_of_http_exception : nat → string → string.
Variable getsize : string → string + Z.
Variable page_count : string → string + Z.
Variable file_too_large_message : Z → string.
Variable too_many_pages_message : Z → string.

Local Abbreviation scrape_url :=
  (scrape_url network html_parser urljoin b64encode put_object
     bucket_name aws_region enterprise_is_valid_url) (only parsing).
Local Abbreviation fetch_WebScrapMarkdowns_from_s3 :=
  (fetch_WebScrapMarkdowns_from_s3 list_objects_v2 generate_presigned_url
     str_of_http_exception) (only parsing).
Local Abbreviation fetch_latest_markdown_downloads :=
  (fetch_latest_markdown_downloads list_objects_v2 generate_presigned_url
     str_of_http_exception) (only parsing).
Local Abbreviation check_pdf_constraints :=
  (check_pdf_constraints getsize page_count
     file_too_large_message too_many_pages_message) (only parsing).
Local Abbreviation latest_folder_loop :=
  (latest_folder_loop list_objects_v2) (only parsing).
Local Abbreviation download_links :=
  (download_links generate_presigned_url) (only parsing).
Local Abbreviation listed_markdown :=
  (listed_markdown list_objects_v2) (only parsing).

(** ** Strings *)

Section StringFacts.

Implicit Types s p q r : string.

Lemma str_app_cons a s r : String a s +:+ r = String a (s +:+ r).
Proof. reflexivity. Qed.

Lemma str_app_empty_l s : "" +:+ s = s.
Proof. reflexivity. Qed.

Lemma str_app_empty_r s : s +:+ "" = s.
Proof. induction s as [|a s IH]; [done|]. by rewrite str_app_cons, IH. Qed.

Lemma str_app_assoc s p r : (s +:+ p) +:+ r = s +:+ (p +:+ r).
Proof. induction s as [|a s IH]; [done|]. by rewrite !str_app_cons, IH. Qed.

Lemma str_app_length s p :
  String.length (s +:+ p) = String.length s + String.length p.
Proof. induction s as [|a s IH]; [done|]. rewrite str_app_cons. simpl. lia. Qed.

(** [startswith] decides "[p] followed by something". *)
Lemma startswith_spec s p : startswith s p = true ↔ ∃ r, s = p +:+ r.
Proof.
  revert s. induction p as [|a p IH]; intros s; simpl.
  - split; [intros _; by exists s|done].
  - destruct s as [|b s].
    + split; [done|]. intros [r Hr]. by rewrite str_app_cons in Hr.
    + rewrite andb_true_iff, bool_decide_eq_true, IH. split.
      * intros [-> [r ->]]. by exists r.
      * intros [r Hr]. rewrite str_app_cons in Hr. injection Hr as <- ->. eauto.
Qed.

(** [endswith] decides "something followed by [p]". *)
Lemma endswith_spec s p : endswith s p = true ↔ ∃ q, s = q +:+ p.
Proof.
  induction s as [|a s IH]; simpl.
  - rewrite orb_false_r, bool_decide_eq_true. split.
    + intros <-. by exists "".
    + intros [[|b q] Hq]; [done|]. by rewrite str_app_cons in Hq.
  - rewrite orb_true_iff, bool_decide_eq_true, IH. split.
    + intros [<-|[q ->]]; [by exists ""|]. by exists (String a q).
    + intros [[|b q] Hq]; [left; done|right].
      rewrite str_app_cons in Hq. injection Hq as _ ->. by exists q.
Qed.

(** Two endings of the same length of one string are the same. *)
Lemma same_ending q q' p p' :
  q +:+ p = q' +:+ p' → String.length p = String.length p' → p = p'.
Proof.
  revert q'. induction q as [|a q IH]; intros [|b q'] Heq Hlen.
  - done.
  - rewrite str_app_empty_l in Heq. subst p.
    rewrite str_app_cons in Hlen. simpl in Hlen. rewrite str_app_length in Hlen. lia.
  - rewrite str_app_empty_l in Heq. subst p'.
    rewrite str_app_cons in Hlen. simpl in Hlen. rewrite str_app_length in Hlen. lia.
  - rewrite !str_app_cons in Heq. injection Heq as _ Heq. by eapply IH.
Qed.

Lemma existsb_endswith s exts :
  existsb (λ ext, endswith s ext) exts = false
  ↔ ∀ ext, ext ∈ exts → ¬ ∃ q, s = q +:+ ext.
Proof.
  induction exts as [|e exts IH]; simpl.
  - split; [|done]. intros _ ext Hin. by apply elem_of_nil in Hin.
  - rewrite orb_false_iff, IH. split.
    + intros [He Hrest] ext [->|Hin]%elem_of_cons; [|by apply Hrest].
      intros Hq%endswith_spec. congruence.
    + intros H. split.
      * destruct (endswith s e) eqn:He; [|done].
        apply endswith_spec in He. exfalso. eapply H; [|done]. by left.
      * intros ext Hin. apply H. by right.
Qed.

End StringFacts.

(** ** URL validation *)

(** [is_valid_url] accepts exactly the strings that begin with one of the
    two literal prefixes and whose lower-cased text, taken as a whole, has
    none of the listed endings. *)
Lemma is_valid_url_iff (url : string) :
  is_valid_url url = true ↔
  ((∃ r, url = "http://" +:+ r) ∨ (∃ r, url = "https://" +:+ r)) ∧
  (∀ ext, ext ∈ DISALLOWED_EXTENSIONS → ¬ ∃ q, lower url = q +:+ ext).
Proof.
  unfold is_valid_url.
  rewrite <- !startswith_spec, <- existsb_endswith.
  destruct (startswith url "http://"), (startswith url "https://"),
    (existsb _ DISALLOWED_EXTENSIONS); simpl;
    (split; [intros H|intros [[H|H] H']]); try done;
    (split; [by (left + right)|done]).
Qed.

(** On a URL with a query string the check looks at the end of the whole
    string, not at the end of the path. *)
Lemma is_valid_url_not_on_path :
  let url := "http://example.com/report.pdf?download=1" in
  Spec.url_scheme url = "http" ∧ Spec.url_path url = "/report.pdf" ∧
  is_valid_url url = true ∧ Spec.validate url = false ∧
  is_valid_url url ≠ Spec.validate url.
Proof. vm_compute. repeat split; discriminate. Qed.

(** An upper-case scheme is refused although the scheme is http. *)
Lemma is_valid_url_scheme_case :
  Spec.url_scheme "HTTP://example.com/" = "http" ∧
  is_valid_url "HTTP://example.com/" = false ∧
  Spec.validate "HTTP://example.com/" = true.
Proof. by vm_compute. Qed.

(** C2 (as amended). [is_valid_url(url)] is true exactly when [url]
    begins with the literal text [http://] or [https://] and the whole
    URL string, in lower case, does not end in one of the nine listed
    extensions; and the script validates the line it has read before any
    request: on a refused URL it exits with status 1 and the world is
    untouched. *)
Theorem is_valid_url_whole_string (url : string) :
  (is_valid_url url = true ↔
     ((∃ r, url = "http://" +:+ r) ∨ (∃ r, url = "https://" +:+ r)) ∧
     (∀ ext, ext ∈ DISALLOWED_EXTENSIONS → ¬ ∃ q, lower url = q +:+ ext)) ∧
  (∀ line w,
     strip line = url → is_valid_url url = false →
     main line w = (Exited 1, w)).
Proof.
  split; [apply is_valid_url_iff|].
  intros line w <- Hbad. unfold OSWebScrap.main. by rewrite Hbad.
Qed.

(** C8. The format written in the data URI depends on the image URL
    alone: [png] when the lower-cased URL ends in [.png], [gif] when it
    ends in [.gif], [jpeg] in every other case; whatever bytes the
    request returns, the entry for the image is
    [data:image/<format>;base64,<encoded bytes>]. *)
Theorem img_format_from_url_ending (img_url : string) :
  ((∃ q, lower img_url = q +:+ ".png") → img_format_of img_url = "png") ∧
  ((∃ q, lower img_url = q +:+ ".gif") → img_format_of img_url = "gif") ∧
  ((¬ ∃ q, lower img_url = q +:+ ".png") →
   (¬ ∃ q, lower img_url = q +:+ ".gif") →
   img_format_of img_url = "jpeg") ∧
  (∀ idx img_tag images w r,
     network (requests w) img_url = Some r →
     ∃ image : gmap string string,
       embed_image idx img_tag img_url images w
       = (Ok ((images ++ [image])%list), requested img_url w) ∧
       image !! "embedded"
       = Some ("data:image/" +:+ img_format_of img_url +:+ ";base64,"
               +:+ b64encode (content r))).
Proof.
  unfold img_format_of. repeat split.
  - intros H%endswith_spec. by rewrite H.
  - intros Hgif. destruct (endswith (lower img_url) ".png") eqn:Hpng.
    + apply endswith_spec in Hpng as [q Hq]. destruct Hgif as [q' Hq'].
      rewrite Hq in Hq'. by apply same_ending in Hq'.
    + apply endswith_spec in Hgif. by rewrite Hgif.
  - intros Hpng Hgif.
    destruct (endswith (lower img_url) ".png") eqn:E1;
      [by apply endswith_spec in E1|].
    destruct (endswith (lower img_url) ".gif") eqn:E2;
      [by apply endswith_spec in E2|done].
  - intros idx img_tag images w r Hnet. eexists. split.
    + unfold OSWebScrap.embed_image, try_except, bind,
        OSWebScrap.requests_get. rewrite Hnet. reflexivity.
    + by rewrite lookup_insert_eq.
Qed.

(** ** The document tree *)

(** Induction on a tree, with the property known for every child. *)
Lemma node_tree_ind (P : node → Prop) :
  (∀ s, P (NavigableString s)) →
  (∀ s, P (OtherString s)) →
  (∀ nm a cs, Forall P cs → P (Tag nm a cs)) →
  ∀ n, P n.
Proof.
  intros Hs Ho Ht. fix IH 1. intros [nm a cs|s|s]; [|apply Hs|apply Ho].
  apply Ht. induction cs as [|c cs IHcs]; constructor; [apply IH|apply IHcs].
Qed.

Lemma elem_of_descendants_tag nm a cs d :
  d ∈ descendants (Tag nm a cs) ↔ ∃ c, c ∈ cs ∧ (d = c ∨ d ∈ descendants c).
Proof.
  simpl. rewrite list_elem_of_In, in_flat_map. split.
  - intros (c & Hc & Hd). exists c. rewrite list_elem_of_In. split; [done|].
    destruct Hd as [->|Hd]; [by left|right]. by apply list_elem_of_In.
  - intros (c & Hc & Hd). exists c. rewrite <- list_elem_of_In. split; [done|].
    destruct Hd as [->|Hd]; [by left|right]. by apply list_elem_of_In.
Qed.

(** What lies below a descendant lies below the node. *)
Lemma descendants_trans n d e :
  d ∈ descendants n → e ∈ descendants d → e ∈ descendants n.
Proof.
  induction n as [s|s|nm a cs IH] using node_tree_ind; intros Hd He.
  - by apply elem_of_nil in Hd.
  - by apply elem_of_nil in Hd.
  - apply elem_of_descendants_tag in Hd as (c & Hc & Hd).
    apply elem_of_descendants_tag. exists c. split; [done|right].
    destruct Hd as [->|Hd]; [done|].
    rewrite Forall_forall in IH. by apply (IH c).
Qed.

Lemma elem_of_find_all names n d :
  d ∈ find_all names n ↔ d ∈ descendants n ∧ has_name names d = true.
Proof.
  unfold find_all. by rewrite !list_elem_of_In, filter_In.
Qed.

(** The cells found below a row of a table are found below the table. *)
Lemma find_all_below names names' tbl row cell :
  row ∈ find_all names tbl → cell ∈ find_all names' row →
  cell ∈ find_all names' tbl.
Proof.
  rewrite !elem_of_find_all. intros [Hrow _] [Hcell Hname].
  split; [by eapply descendants_trans|done].
Qed.

(** Two nodes that compare equal are both text or have the same name. *)
Lemma node_eqb_has_name names a b :
  node_eqb a b = true → has_name names a = has_name names b.
Proof.
  destruct a as [n1 a1 cs1|s|s], b as [n2 a2 cs2|t|t]; simpl; try done.
  rewrite !andb_true_iff, bool_decide_eq_true. by intros [[-> _] _].
Qed.

(** In two nodes that compare equal the same elements are found, up to
    the comparison. *)
Lemma node_eqb_find_all names a b :
  node_eqb a b = true →
  Forall2 (λ x y, node_eqb x y = true) (find_all names a) (find_all names b).
Proof.
  revert b. induction a as [s|s|n1 a1 cs1 IH] using node_tree_ind;
    intros [n2 a2 cs2|t|t]; simpl; try done; try (intros _; constructor).
  rewrite !andb_true_iff. intros [_ Hcs]. unfold find_all. simpl.
  revert cs2 Hcs.
  induction IH as [|c1 cs1 Hc1 _ IHcs]; intros [|c2 cs2]; simpl; try done.
  rewrite andb_true_iff. intros [Hc Hcs].
  rewrite (node_eqb_has_name names c1 c2 Hc), !List.filter_app.
  destruct (has_name names c2); [constructor; [done|]|];
    (apply Forall2_app; [by apply Hc1|by apply IHcs]).
Qed.

(** ** Tables *)

(** The loop over the rows adds, in order, the texts of the rows that are
    not skipped and have a cell. *)
Lemma rows_loop_filter first hdr trs acc :
  rows_loop first hdr trs acc
  = acc ++ List.filter nonempty_row
             (row_texts <$> List.filter (λ r, negb (skipped first hdr r)) trs).
Proof.
  revert acc. induction trs as [|row rest IH]; intros acc; simpl.
  - by rewrite app_nil_r.
  - destruct (skipped first hdr row); simpl; [apply IH|].
    unfold nonempty_row at 1.
    destruct (negb (bool_decide (row_texts row = []))); rewrite IH; [|done].
    by rewrite <- app_assoc.
Qed.

Lemma skipped_iff first hdr row :
  skipped first hdr row = true ↔
  node_eqb first row = true ∧ hdr ≠ [] ∧
  Forall (λ c, is_th c = true) (row_cells row).
Proof.
  unfold skipped.
  rewrite !andb_true_iff, negb_true_iff, bool_decide_eq_false.
  rewrite forallb_forall, Forall_forall.
  setoid_rewrite list_elem_of_In.
  split; [by intros [[? ?] ?]|by intros (? & ? & ?)].
Qed.

Lemma filter_all_true {A} (f : A → bool) (l : list A) :
  (∀ x, x ∈ l → f x = true) → List.filter f l = l.
Proof.
  induction l as [|x l IH]; intros H; simpl; [done|].
  rewrite (H x) by left. f_equal. apply IH. intros y Hy. apply H. by right.
Qed.

(** In a table without header cells no row is skipped. *)
Lemma no_th_no_skip tbl first rest row :
  find_all ["th"] tbl = [] →
  find_all ["tr"] tbl = first :: rest →
  row ∈ first :: rest →
  skipped first (extract_header tbl) row = false.
Proof.
  intros Hth Htr Hrow.
  destruct (skipped _ _ row) eqn:Hskip; [exfalso|done].
  apply skipped_iff in Hskip as (Heq & Hhdr & Hcells).
  assert (row_cells row = []) as Hnone.
  { destruct (row_cells row) as [|c cs] eqn:Hc; [done|exfalso].
    apply Forall_cons in Hcells as [Hc_th _].
    assert (c ∈ find_all ["th"] tbl) as Hin;
      [|by rewrite Hth in Hin; apply elem_of_nil in Hin].
    apply (find_all_below ["tr"] _ _ row); [by rewrite Htr|].
    apply elem_of_find_all. split; [|done].
    assert (c ∈ row_cells row) as Hcin by (rewrite Hc; left).
    by apply elem_of_find_all in Hcin as [? _]. }
  assert (row_cells first = []) as Hfirst.
  { pose proof (node_eqb_find_all ["td"; "th"] first row Heq) as Hcells'.
    fold (row_cells first) (row_cells row) in Hcells'.
    rewrite Hnone in Hcells'. by apply Forall2_nil_inv_r in Hcells'. }
  apply Hhdr. unfold extract_header, find. rewrite Hth, Htr. simpl.
  fold (row_cells first). by rewrite Hfirst.
Qed.

(** The header row: the texts of all [<th>] cells of the table when there
    is one, otherwise the cell texts of the first row. *)
Lemma extract_table_headers (tbl : node) :
  headers (extract_table tbl)
  = match find_all ["th"] tbl, find_all ["tr"] tbl with
    | [], first :: _ => row_texts first
    | ths, _ => get_text_strip <$> ths
    end.
Proof.
  unfold extract_table, extract_header, find; simpl.
  destruct (find_all ["th"] tbl) as [|c cs]; simpl; [|done].
  destruct (find_all ["tr"] tbl) as [|first rest]; simpl; [done|].
  fold (row_cells first). unfold row_texts.
  by destruct (row_cells first).
Qed.

(** The data rows: the cell texts of the rows of the table, one entry for
    each row, in order, without the rows that the test of line 111 skips
    and without the rows that have no cell. *)
Lemma extract_table_rows (tbl : node) :
  rows (extract_table tbl)
  = match find_all ["tr"] tbl with
    | [] => []
    | first :: rest =>
        List.filter nonempty_row
          (row_texts <$>
           List.filter (λ r, negb (skipped first (extract_header tbl) r))
                       (first :: rest))
    end.
Proof.
  unfold extract_table; simpl.
  destruct (find_all ["tr"] tbl) as [|first rest]; [done|].
  by rewrite rows_loop_filter.
Qed.

(** C1 (a defect of the code). The comments of lines 107 and 110 say that
    the row already taken as the header is skipped, as the specification
    does; the test of line 111 asks in addition that every cell of the
    row is a [<th>] cell, so it never holds for a first row taken as the
    header by position. In a table without [<th>] cells the header is
    the cell texts of the first row and the data rows are the cell texts
    of every row with a cell, the first row among them. For
    [<table><tr><td>A</td></tr><tr><td>1</td></tr></table>] the entry has
    the headers [A] and the data rows [A] and [1], and the rendered table
    shows the row [A] twice, against the rule of the specification; for
    the table of the scenario, whose first row is made of [<th>] cells,
    the header row appears once. *)
Theorem fallback_header_row_is_data_row (tbl : node) :
  (find_all ["th"] tbl = [] →
   headers (extract_table tbl)
   = match find_all ["tr"] tbl with
     | first :: _ => row_texts first
     | [] => []
     end ∧
   rows (extract_table tbl)
   = List.filter nonempty_row (row_texts <$> find_all ["tr"] tbl)) ∧
  extract_table Samples.table_td
  = {| headers := ["A"]; rows := [["A"]; ["1"]] |} ∧
  (render_table 1 (extract_table Samples.table_td) "").2
  = "### Table 1" +:+ nl +:+ nl +:+ "| A |" +:+ nl +:+ "| --- |" +:+ nl
    +:+ "| A |" +:+ nl +:+ "| 1 |" +:+ nl +:+ nl ∧
  ¬ Spec.skips_fallback_row Samples.table_td ∧
  extract_table Samples.table_th
  = {| headers := ["A"; "B"]; rows := [["1"]] |} ∧
  render_table 1 (extract_table Samples.table_th) ""
  = ({| headers := ["A"; "B"]; rows := [["1"; ""]] |},
     "### Table 1" +:+ nl +:+ nl +:+ "| A | B |" +:+ nl +:+ "| --- | --- |"
     +:+ nl +:+ "| 1 |  |" +:+ nl +:+ nl).
Proof.
  split; [|split; [reflexivity|split; [reflexivity|split;
    [|split; reflexivity]]]].
  - intros Hth. split.
    + rewrite extract_table_headers, Hth.
      by destruct (find_all ["tr"] tbl).
    + rewrite extract_table_rows.
      destruct (find_all ["tr"] tbl) as [|first rest] eqn:Htr; [done|].
      rewrite (filter_all_true (λ r, negb (skipped _ _ r)) (first :: rest));
        [done|].
      intros r Hr. by rewrite (no_th_no_skip tbl first rest r).
  - intros H.
    destruct (H (Samples.el "tr" [Samples.el "td" [Samples.txt "A"]])
                [Samples.el "tr" [Samples.el "td" [Samples.txt "1"]]])
      as [_ Hrows]; [reflexivity|reflexivity|by vm_compute|].
    vm_compute in Hrows. discriminate.
Qed.

(** ** Rendering of tables *)


Lemma pad_row_short (hs row : list string) :
  hs ≠ [] → (length row < length hs)%nat →
  pad_row hs row = row ++ replicate (length hs - length row) "".
Proof.
  intros Hhs Hlen. unfold pad_row.
  rewrite bool_decide_eq_false_2 by done.
  apply Nat.ltb_lt in Hlen as ->. simpl. f_equal.
  generalize (length hs - length row) 0. intros n.
  induction n as [|n IH]; intros k; simpl; [done|]. by rewrite IH.
Qed.

Lemma pad_row_long (hs row : list string) :
  (length hs ≤ length row)%nat → pad_row hs row = row.
Proof.
  intros Hlen. unfold pad_row.
  apply Nat.ltb_ge in Hlen as ->. by rewrite andb_false_r.
Qed.

Lemma pad_row_no_header row : pad_row [] row = row.
Proof. done. Qed.

(** The loop over the rows pads every row and adds its line. *)
Lemma render_rows_closed hs rws md :
  render_rows hs rws md
  = (pad_row hs <$> rws, md +:+ cat (row_line <$> (pad_row hs <$> rws))).
Proof.
  revert md. induction rws as [|row rest IH]; intros md; simpl.
  - by rewrite str_app_empty_r.
  - rewrite IH. by rewrite str_app_assoc.
Qed.

Lemma render_table_closed idx t md :
  render_table idx t md = (padded t, md +:+ table_text idx t).
Proof.
  unfold render_table, table_text, padded. rewrite render_rows_closed. simpl.
  f_equal. destruct (bool_decide (headers t = [])); simpl;
    by rewrite ?str_app_assoc.
Qed.

Lemma render_tables_closed idx tables md :
  render_tables idx tables md
  = (padded <$> tables,
     md +:+ cat (imap (λ i t, table_text (idx + i) t) tables)).
Proof.
  revert idx md. induction tables as [|t rest IH]; intros idx md; simpl.
  - by rewrite str_app_empty_r.
  - rewrite render_table_closed, IH. f_equal.
    rewrite str_app_assoc, Nat.add_0_r. do 3 f_equal.
    apply imap_ext. intros i x _. simpl. f_equal. lia.
Qed.

(** ** Rendering of images *)

Lemma render_images_closed idx images md w :
  Forall well_formed images →
  render_images idx images md w = (Ok (md +:+ cat (image_text <$> images)), w).
Proof.
  intros H. revert idx md.
  induction H as [|im rest [[emb Hemb] [alt Halt]] _ IH]; intros idx md; simpl.
  - by rewrite str_app_empty_r.
  - rewrite Hemb, Halt. simpl. rewrite IH. unfold image_text.
    rewrite Hemb, Halt. simpl. by rewrite !str_app_assoc.
Qed.

(** The whole text: the title and the Content section, then the Tables
    section, then the Images section. *)
Lemma render_closed cleaned_text tables images w :
  Forall well_formed images →
  render cleaned_text tables images w
  = (Ok (padded <$> tables,
         content_section cleaned_text +:+ tables_section tables
         +:+ images_section images), w).
Proof.
  intros Himg. unfold render, tables_section, images_section.
  assert (("# Extracted Web Content" +:+ nl +:+ nl) +:+
          "## Content" +:+ nl +:+ nl +:+ cleaned_text +:+ nl +:+ nl
          = content_section cleaned_text) as -> by done.
  destruct tables as [|t ts]; destruct images as [|im ims];
    rewrite ?bool_decide_eq_true_2 by done;
    rewrite ?bool_decide_eq_false_2 by done; cbn [negb];
    rewrite ?render_tables_closed; unfold bind;
    rewrite ?render_images_closed by done; unfold ret; simpl;
    by rewrite ?str_app_empty_r, ?str_app_assoc.
Qed.

(** ** Pipes *)

Lemma sanitize_no_leading_pipe cell r : sanitize cell ≠ String "|" r.
Proof.
  destruct cell as [|a cell]; [done|]. unfold sanitize; simpl.
  case_bool_decide; [done|]. congruence.
Qed.

(** In a data cell every pipe gets a backslash before it. *)
Lemma sanitize_escapes_pipes cell : pipes_escaped (sanitize cell) = true.
Proof.
  induction cell as [|a cell IH]; [done|].
  unfold sanitize in *; simpl. case_bool_decide as Ha.
  - subst a. exact IH.
  - pose proof (sanitize_no_leading_pipe cell) as Hlead. unfold sanitize in Hlead.
    destruct (replace "|" "\|" cell) as [|b rest] eqn:Hrest.
    + simpl. destruct a as [[] [] [] [] [] [] [] []]; try done.
    + assert (b ≠ "|"%char) as Hb by (intros ->; by eapply Hlead).
      assert (pipes_escaped (String a (String b rest))
              = pipes_escaped (String b rest)) as ->; [|done].
      destruct a as [[] [] [] [] [] [] [] []]; try done.
      destruct b as [[] [] [] [] [] [] [] []]; done.
Qed.

(** A cell without a pipe is rendered as it is. *)
Lemma sanitize_without_pipe cell :
  (∀ c, c ∈ list_ascii_of_string cell → c ≠ "|"%char) → sanitize cell = cell.
Proof.
  induction cell as [|a cell IH]; intros H; [done|].
  unfold sanitize in *; simpl.
  rewrite bool_decide_eq_false_2 by (apply H; simpl; left).
  f_equal. apply IH. intros c Hc. apply H. simpl. by right.
Qed.

(** C3. The table with the header cell [a|b] and the data cell [c|d]: the
    data cell is rendered [c\|d], the header cell is rendered [a|b], with
    a pipe that is not escaped. *)
Theorem header_pipe_not_escaped :
  extract_table Samples.table_pipe
  = {| headers := ["a|b"]; rows := [["c|d"]] |} ∧
  (render_table 1 (extract_table Samples.table_pipe) "").2
  = "### Table 1" +:+ nl +:+ nl +:+ "| a|b |" +:+ nl +:+ "| --- |" +:+ nl
    +:+ "| c\|d |" +:+ nl +:+ nl ∧
  header_line ["a|b"] = "| a|b |" +:+ nl ∧
  pipes_escaped "a|b" = false ∧
  row_line ["c|d"] = "| c\|d |" +:+ nl.
Proof. by vm_compute. Qed.

(** ** Padding *)

(** C4. With a non-empty header, the rendering changes a row shorter than
    the header into the row followed by empty strings, with as many columns
    as the header, and leaves every other row as it is; the line of a row
    lists all cells of the row as the rendering left it, each of them as
    it is unless it contains a pipe. *)
Theorem rows_padded_never_truncated (hs : list string)
    (rws : list (list string)) (md : string) :
  hs ≠ [] →
  Forall2
    (λ row row',
       ((length row < length hs)%nat →
        row' = row ++ replicate (length hs - length row) "" ∧
        length row' = length hs) ∧
       ((length hs ≤ length row)%nat → row' = row))
    rws (render_rows hs rws md).1 ∧
  (render_rows hs rws md).2
  = md +:+ cat ((λ row', "| " +:+ join " | " (sanitize <$> row') +:+ " |" +:+ nl)
                  <$> (render_rows hs rws md).1) ∧
  (∀ cell, (∀ c, c ∈ list_ascii_of_string cell → c ≠ "|"%char) →
           sanitize cell = cell).
Proof.
  intros Hhs. rewrite render_rows_closed. simpl.
  split; [|split; [done|apply sanitize_without_pipe]].
  induction rws as [|row rest IH]; simpl; constructor; [|done].
  split.
  - intros Hlt. rewrite pad_row_short by done. split; [done|].
    rewrite length_app, length_replicate. lia.
  - apply pad_row_long.
Qed.

(** ** The separator line *)

Lemma occurrences_dashes_more (s : string) :
  occurrences "---" ("---" +:+ " | " +:+ s) = S (occurrences "---" s).
Proof. reflexivity. Qed.

Lemma occurrences_dashes_last :
  occurrences "---" ("---" +:+ " |" +:+ nl) = 1.
Proof. reflexivity. Qed.

Lemma occurrences_dashes_first (s : string) :
  occurrences "---" ("| " +:+ s) = occurrences "---" s.
Proof. reflexivity. Qed.

(** C9. For a table with a non-empty header the separator line, which
    the rendering writes right after the header line, has as many [---]
    entries as the header has cells. *)
Theorem separator_count (idx : nat) (t : table) (md : string) :
  headers t ≠ [] →
  occurrences "---" (separator_line (headers t)) = length (headers t) ∧
  (render_table idx t md).2
  = md +:+ "### Table " +:+ str_of_nat idx +:+ nl +:+ nl
    +:+ header_line (headers t) +:+ separator_line (headers t)
    +:+ cat (row_line <$> rows (padded t)) +:+ nl.
Proof.
  intros Hhs. split.
  - unfold separator_line. rewrite occurrences_dashes_first.
    destruct (headers t) as [|h hs]; [done|]. clear Hhs.
    revert h. induction hs as [|h' hs IH]; intros h.
    + apply occurrences_dashes_last.
    + change (occurrences "---"
                ("---" +:+ " | "
                 +:+ (join " | " ((λ _, "---") <$> h' :: hs) +:+ " |" +:+ nl))
              = S (length (h' :: hs))).
      by rewrite occurrences_dashes_more, IH.
  - rewrite render_table_closed. unfold table_text. simpl.
    rewrite bool_decide_eq_false_2 by done. by rewrite !str_app_assoc.
Qed.

(** ** Images *)

(** One image: either the request fails and the list is unchanged, or the
    image is added at the end with its data URI and alt text. *)
Lemma embed_image_cases idx img_tag img_url images w :
  embed_image idx img_tag img_url images w
  = match network (requests w) img_url with
    | None => (Ok images, requested img_url w)
    | Some r =>
        (Ok (images ++ [image_entry b64encode img_url idx img_tag r]),
         requested img_url w)
    end.
Proof.
  unfold OSWebScrap.embed_image, try_except, bind, OSWebScrap.requests_get,
    image_entry, alt_for, get_default.
  destruct (network (requests w) img_url); [|done].
  unfold ret. by destruct (get img_tag "alt").
Qed.

Lemma image_entry_well_formed img_url idx img_tag r :
  well_formed (image_entry b64encode img_url idx img_tag r).
Proof.
  unfold image_entry. split.
  - rewrite lookup_insert_eq. eauto.
  - rewrite lookup_insert_ne by done. rewrite lookup_singleton_eq. eauto.
Qed.

(** One turn of the loop. *)
Lemma scrape_images_cons url idx img_tag rest images w :
  scrape_images url idx (img_tag :: rest) images w
  = match source_of img_tag with
    | None => scrape_images url (S idx) rest images w
    | Some src =>
        match urljoin url src with
        | None => (Raise, w)
        | Some img_url =>
            match network (requests w) img_url with
            | Some r =>
                scrape_images url (S idx) rest
                  (images ++ [image_entry b64encode img_url idx img_tag r])
                  (requested img_url w)
            | None =>
                scrape_images url (S idx) rest images (requested img_url w)
            end
        end
    end.
Proof.
  simpl. unfold source_of.
  destruct (get img_tag "src") as [src|]; [|done].
  case_bool_decide; [done|].
  destruct (urljoin url src) as [img_url|]; [|done].
  unfold bind. rewrite embed_image_cases.
  by destruct (network (requests w) img_url).
Qed.

Lemma image_urls_cons url img_tag rest :
  image_urls urljoin url (img_tag :: rest)
  = match source_of img_tag ≫= urljoin url with
    | Some img_url => img_url :: image_urls urljoin url rest
    | None => image_urls urljoin url rest
    end.
Proof.
  unfold image_urls. simpl. by destruct (source_of img_tag ≫= urljoin url).
Qed.

Lemma with_source_cons idx img_tag rest :
  with_source idx (img_tag :: rest)
  = match source_of img_tag with
    | Some _ => (idx, img_tag) :: with_source (S idx) rest
    | None => with_source (S idx) rest
    end.
Proof.
  unfold with_source. simpl. destruct (source_of img_tag) eqn:Hsrc.
  - by rewrite bool_decide_eq_true_2 by eauto.
  - by rewrite bool_decide_eq_false_2 by (by intros [? ?]).
Qed.

(** The loop over the [<img>] elements uploads nothing, whether it
    returns or raises. *)
Lemma scrape_images_puts url idx img_tags images w res w' :
  scrape_images url idx img_tags images w = (res, w') → puts w' = puts w.
Proof.
  revert idx images w.
  induction img_tags as [|img_tag rest IH]; intros idx images w.
  - by intros [= <- <-].
  - rewrite scrape_images_cons.
    destruct (source_of img_tag) as [src|]; [|apply IH].
    destruct (urljoin url src) as [img_url|]; [|by intros [= <- <-]].
    destruct (network (requests w) img_url) as [r|];
      intros Hrest; by apply IH in Hrest.
Qed.

(** The entries the loop builds have both keys. *)
Lemma scrape_images_well_formed url idx img_tags images w images' w' :
  scrape_images url idx img_tags images w = (Ok images', w') →
  Forall well_formed images → Forall well_formed images'.
Proof.
  revert idx images w.
  induction img_tags as [|img_tag rest IH]; intros idx images w.
  - by intros [= <- <-].
  - rewrite scrape_images_cons.
    destruct (source_of img_tag) as [src|]; [|apply IH].
    destruct (urljoin url src) as [img_url|]; [|done].
    destruct (network (requests w) img_url) as [r|];
      intros Hrest Hwf; eapply IH; [done| |done|done].
    apply Forall_app. split; [done|]. constructor; [|done].
    apply image_entry_well_formed.
Qed.


(** A loop that returns has requested the URLs of the images, in order. *)
Lemma scrape_images_requested url idx img_tags images w images' w' :
  scrape_images url idx img_tags images w = (Ok images', w') →
  requests w' = requests w ++ image_urls urljoin url img_tags.
Proof.
  revert idx images w.
  induction img_tags as [|img_tag rest IH]; intros idx images w.
  - intros [= <- <-]. simpl. by rewrite app_nil_r.
  - rewrite scrape_images_cons, image_urls_cons.
    destruct (source_of img_tag) as [src|]; [|apply IH]. simpl.
    destruct (urljoin url src) as [img_url|]; [|done].
    destruct (network (requests w) img_url) as [r|];
      intros Hrest; apply IH in Hrest; rewrite Hrest; simpl;
      by rewrite <- app_assoc.
Qed.



(** ** The whole function *)

(** When the page is fetched, its status is not an error status and the
    loop over the images returns, the function returns the fixed path and
    puts the rendered text to S3. *)
Lemma scrape_visual_data_ok url w r images w1 :
  network (requests w) url = Some r →
  ¬ (400 ≤ status_code r < 600)%nat →
  let soup := html_parser (text r) in
  scrape_images url 0 (find_all ["img"] soup) [] (requested url w)
  = (Ok images, w1) →
  scrape_visual_data url w
  = (Ok markdown_s3_path,
     {| requests := requests w1;
        puts := puts w ++
                [(markdown_s3_path,
                  content_section (clean_text soup)
                  +:+ tables_section (extract_table <$> find_all ["table"] soup)
                  +:+ images_section images,
                  "text/markdown")] |}).
Proof.
  intros Hnet Hstatus soup Himg.
  pose proof (scrape_images_puts _ _ _ _ _ _ _ Himg) as Hputs.
  pose proof (scrape_images_well_formed _ _ _ _ _ _ _ Himg
                (Forall_nil_2 _)) as Hwf.
  unfold OSWebScrap.scrape_visual_data, bind at 1, OSWebScrap.requests_get.
  rewrite Hnet. unfold bind at 1, raise_for_status.
  assert (((400 <=? status_code r) && (status_code r <? 600))%nat = false)
    as ->.
  { apply not_true_iff_false. intros [H1 H2]%andb_true_iff.
    apply Nat.leb_le in H1. apply Nat.ltb_lt in H2. lia. }
  unfold ret at 1, bind at 1. fold soup. rewrite Himg.
  unfold bind at 1. rewrite render_closed by done.
  unfold bind, upload_file_to_s3, ret. simpl.
  rewrite Hputs. by destruct (put_object _ _ _).
Qed.


(** C7 (a defect of the code). A failure of the request for the page is
    fatal, and so is an error status of its response, which line 55
    turns into an exception. For an image only the failure of the request
    itself is caught: the loop goes on with the next element and the list
    as it was. The status of the response to an image request is never
    looked at, so an image answered with an error status is not left out:
    the body of the error response is embedded as the image. On a page
    with [<img src="a.png" alt="logo">] whose image request is answered
    with status 404 and the body [Not Found], the uploaded text has the
    image [data:image/png;base64,] followed by the encoded [Not Found],
    while the same answer to the request for the page ends the run with
    the exception. Further, a source for which [urljoin] raises ends the
    run with that exception, because line 65 stands outside the [try]
    block. *)
Theorem image_error_status_is_embedded (url : string) (w : world) :
  (network (requests w) url = None →
   scrape_visual_data url w = (Raise, requested url w)) ∧
  (∀ r, network (requests w) url = Some r →
        (400 ≤ status_code r < 600)%nat →
        scrape_visual_data url w = (Raise, requested url w)) ∧
  (∀ idx img_tag rest images w1 src img_url,
     get img_tag "src" = Some src → src ≠ "" →
     urljoin url src = Some img_url →
     network (requests w1) img_url = None →
     scrape_images url idx (img_tag :: rest) images w1
     = scrape_images url (S idx) rest images (requested img_url w1)) ∧
  (∀ idx img_tag rest images w1 src img_url r,
     get img_tag "src" = Some src → src ≠ "" →
     urljoin url src = Some img_url →
     network (requests w1) img_url = Some r →
     scrape_images url idx (img_tag :: rest) images w1
     = scrape_images url (S idx) rest
         (images ++
          [ <["embedded" := "data:image/" +:+ img_format_of img_url
                             +:+ ";base64," +:+ b64encode (content r)]>
            {[ "alt" := get_default img_tag "alt"
                          ("Image " +:+ str_of_nat (idx + 1)) ]} ])
         (requested img_url w1)) ∧
  OSWebScrap.scrape_visual_data Samples.net_images_missing
    (λ _, Samples.page_logo) Samples.join_url Samples.no_encoding
    Samples.put_ok "bucket" "region" "http://h/" Samples.w0
  = (Ok markdown_s3_path,
     {| requests := ["http://h/"; "http://h/a.png"];
        puts := [(markdown_s3_path,
                  "# Extracted Web Content" +:+ nl +:+ nl +:+ "## Content"
                  +:+ nl +:+ nl +:+ nl +:+ nl +:+ "## Images" +:+ nl +:+ nl
                  +:+ "![logo](data:image/png;base64,Not Found)"
                  +:+ nl +:+ nl,
                  "text/markdown")] |}) ∧
  OSWebScrap.scrape_visual_data Samples.net_page_missing
    (λ _, Samples.page_logo) Samples.join_url Samples.no_encoding
    Samples.put_ok "bucket" "region" "http://h/" Samples.w0
  = (Raise, {| requests := ["http://h/"]; puts := [] |}) ∧
  OSWebScrap.scrape_visual_data Samples.net_up
    (λ _, Samples.page_bad_src) Samples.strict_join_url Samples.no_encoding
    Samples.put_ok "bucket" "region" "http://h/" Samples.w0
  = (Raise, {| requests := ["http://h/"]; puts := [] |}).
Proof.
  split; [|split; [|split; [|split; [|split; [|split]]]]].
  - intros Hnet. unfold OSWebScrap.scrape_visual_data, bind at 1,
      OSWebScrap.requests_get. by rewrite Hnet.
  - intros r Hnet [H1 H2]. unfold OSWebScrap.scrape_visual_data, bind at 1,
      OSWebScrap.requests_get. rewrite Hnet.
    unfold bind at 1, raise_for_status.
    apply Nat.leb_le in H1. apply Nat.ltb_lt in H2. by rewrite H1, H2.
  - intros idx img_tag rest images w1 src img_url Hsrc Hne Hjoin Hnet.
    rewrite scrape_images_cons. unfold source_of.
    rewrite Hsrc, bool_decide_eq_false_2 by done. by rewrite Hjoin, Hnet.
  - intros idx img_tag rest images w1 src img_url r Hsrc Hne Hjoin Hnet.
    rewrite scrape_images_cons. unfold source_of.
    rewrite Hsrc, bool_decide_eq_false_2 by done.
    rewrite Hjoin, Hnet. unfold image_entry, alt_for, get_default.
    by destruct (get img_tag "alt").
  - by vm_compute.
  - by vm_compute.
  - by vm_compute.
Qed.


(** C6. The rendered text is the title and the Content section, followed
    by the Tables section and by the Images section; the Tables section is
    empty when there is no table and begins with its heading and the first
    numbered subsection when there is one; the Images section is empty
    when there is no image and begins with its heading when there is one.
    For a page without [<table>] and [<img>] elements the uploaded text is
    the title and the Content section alone. *)
Theorem sections_only_when_present (cleaned_text : string)
    (tables : list table) (images : list (gmap string string)) (w : world) :
  Forall well_formed images →
  render cleaned_text tables images w
  = (Ok (padded <$> tables,
         content_section cleaned_text +:+ tables_section tables
         +:+ images_section images), w) ∧
  (tables = [] → images = [] →
   render cleaned_text tables images w
   = (Ok ([], "# Extracted Web Content" +:+ nl +:+ nl +:+ "## Content"
              +:+ nl +:+ nl +:+ cleaned_text +:+ nl +:+ nl), w)) ∧
  (tables = [] → tables_section tables = "") ∧
  (images = [] → images_section images = "") ∧
  (tables ≠ [] →
   ∃ rest, tables_section tables
           = "## Tables" +:+ nl +:+ nl +:+ "### Table 1" +:+ nl +:+ nl
             +:+ rest) ∧
  (images ≠ [] →
   ∃ rest, images_section images = "## Images" +:+ nl +:+ nl +:+ "![" +:+ rest) ∧
  (∀ url r,
     network (requests w) url = Some r →
     ¬ (400 ≤ status_code r < 600)%nat →
     find_all ["table"] (html_parser (text r)) = [] →
     find_all ["img"] (html_parser (text r)) = [] →
     scrape_visual_data url w
     = (Ok markdown_s3_path,
        {| requests := requests w ++ [url];
           puts := puts w ++
                   [(markdown_s3_path,
                     content_section (clean_text (html_parser (text r))),
                     "text/markdown")] |})).
Proof.
  intros Hwf. split; [by apply render_closed|].
  split; [|split; [by intros ->|split; [by intros ->|split; [|split]]]].
  - intros -> ->. rewrite render_closed by done.
    unfold tables_section, images_section, content_section. simpl.
    by rewrite !str_app_empty_r.
  - destruct tables as [|t ts]; [done|]. intros _.
    unfold tables_section, table_text. simpl. eexists.
    by rewrite ?str_app_assoc.
  - destruct images as [|im ims]; [done|]. intros _.
    unfold images_section, image_text. simpl. eexists.
    by rewrite ?str_app_assoc.
  - intros url r Hnet Hstatus Htables Himgs.
    rewrite (scrape_visual_data_ok url w r [] (requested url w) Hnet Hstatus)
      by (by rewrite Himgs).
    rewrite Htables. unfold tables_section, images_section. simpl.
    by rewrite !str_app_empty_r.
Qed.



(** ** More on the image loop *)


(** X2. Let [urljoin] give a URL for every source. When none of the
    requests that the loop makes for the images fails, the loop adds one
    entry for every [<img>] element with a non-empty source, in document
    order: the entry for an element has the alt text for the position of
    the element and the data URI made of the format of its image URL and
    of the encoded body of the answer to its request. When every one of
    these requests fails, the loop adds nothing. *)
Theorem scrape_images_all_or_nothing (url : string) (idx : nat)
    (img_tags : list node) (images : list (gmap string string)) (w : world) :
  Forall (resolves urljoin url) img_tags →
  let replies :=
    answers network (requests w) (image_urls urljoin url img_tags) in
  (Forall is_Some replies →
   ∃ new w',
     scrape_images url idx img_tags images w = (Ok (images ++ new), w') ∧
     Forall3
       (λ it reply image,
          ∃ src img_url r,
            source_of it.2 = Some src ∧ urljoin url src = Some img_url ∧
            reply = Some r ∧
            image !! "alt" = Some (alt_for it.1 it.2) ∧
            image !! "embedded"
            = Some ("data:image/" +:+ img_format_of img_url
                    +:+ ";base64," +:+ b64encode (content r)) ∧
            dom image = {["alt"; "embedded"]})
       (with_source idx img_tags) replies new) ∧
  (Forall (λ reply, reply = None) replies →
   ∃ w', scrape_images url idx img_tags images w = (Ok images, w')).
Proof.
  intros Hres. cbv zeta. revert idx images w.
  induction Hres as [|img_tag rest Himg _ IH]; intros idx images w.
  { split; intros _; [|by exists w].
    exists [], w. simpl. rewrite app_nil_r. split; [done|constructor]. }
  rewrite scrape_images_cons, with_source_cons, image_urls_cons.
  unfold resolves in Himg.
  destruct (source_of img_tag) as [src|] eqn:Hsrc; [|apply IH]. simpl.
  destruct Himg as [img_url Hjoin]. rewrite Hjoin. simpl. split.
  - intros [[r Hr] Hrest]%Forall_cons. rewrite Hr.
    destruct (IH (S idx)
                (images ++ [image_entry b64encode img_url idx img_tag r])
                (requested img_url w)) as [IH1 _].
    destruct (IH1 Hrest) as (new & w' & -> & Hall).
    eexists (_ :: new), w'. rewrite <- app_assoc. split; [done|].
    constructor; [|done]. exists src, img_url, r. unfold image_entry. simpl.
    split; [done|]. split; [done|]. split; [done|]. split; [|split].
    + rewrite lookup_insert_ne by done. by rewrite lookup_singleton_eq.
    + by rewrite lookup_insert_eq.
    + rewrite dom_insert_L, dom_singleton_L. set_solver.
  - intros [Hr Hrest]%Forall_cons. rewrite Hr.
    destruct (IH (S idx) images (requested img_url w)) as [_ IH2].
    by apply IH2.
Qed.

(** ** The upload *)


(** ** Rows after the rendering *)

Lemma pad_row_length (hs row : list string) :
  (length hs ≤ length (pad_row hs row))%nat.
Proof.
  destruct (decide (length row < length hs)%nat) as [Hlt|Hge].
  - destruct hs as [|h hs]; [simpl in Hlt; lia|].
    rewrite pad_row_short by done. rewrite length_app, length_replicate. lia.
  - rewrite pad_row_long by lia. lia.
Qed.

Lemma pad_row_idemp (hs row : list string) :
  pad_row hs (pad_row hs row) = pad_row hs row.
Proof. apply pad_row_long, pad_row_length. Qed.

Lemma padded_idemp t : padded (padded t) = padded t.
Proof.
  unfold padded. simpl. f_equal. rewrite <- list_fmap_compose.
  apply list_fmap_ext. intros i row _. apply pad_row_idemp.
Qed.

(** X4. After a table has been rendered every row of it is at least as
    long as its header, and rendering it once more gives the same rows and
    the same text: the padding done in place is done only once. *)
Theorem rendered_rows_cover_header (idx : nat) (t : table) (md : string) :
  Forall (λ row, (length (headers t) ≤ length row)%nat)
    (rows (render_table idx t md).1) ∧
  headers (render_table idx t md).1 = headers t ∧
  render_table idx (render_table idx t md).1 md = render_table idx t md.
Proof.
  rewrite !render_table_closed. simpl. split; [|split; [done|]].
  - apply Forall_fmap, Forall_true. intros row. apply pad_row_length.
  - rewrite padded_idemp. f_equal. f_equal.
    unfold table_text. by rewrite padded_idemp.
Qed.

(** ** Pipes in data cells *)

(** X5. In a data cell as it is written to the table every pipe stands
    right after a backslash. *)
Theorem sanitize_pipe_after_backslash (cell : string) (i : nat) :
  String.get i (sanitize cell) = Some "|"%char →
  ∃ j, i = S j ∧ String.get j (sanitize cell) = Some "\"%char.
Proof.
  revert i. induction cell as [|a cell IH]; intros i; [done|].
  unfold sanitize in *. simpl. case_bool_decide as Ha.
  - destruct i as [|[|i]]; simpl; [done|by exists 0|].
    intros (j & -> & Hj)%IH. by exists (S (S j)).
  - destruct i as [|i]; simpl; [by intros [= ->]|].
    intros (j & -> & Hj)%IH. by exists (S j).
Qed.

(** ** Trimming *)

Lemma lstrip_length s : (String.length (lstrip s) ≤ String.length s)%nat.
Proof.
  induction s as [|c s IH]; simpl; [done|]. destruct (isspace c); simpl; lia.
Qed.

Lemma lstrip_fixed c s : lstrip (String c s) = String c s → isspace c = false.
Proof.
  simpl. destruct (isspace c); [|done]. intros H.
  pose proof (lstrip_length s) as Hlen. rewrite H in Hlen. simpl in Hlen. lia.
Qed.

Lemma lstrip_head s :
  lstrip s = "" ∨ ∃ c r, lstrip s = String c r ∧ isspace c = false.
Proof.
  induction s as [|c s IH]; simpl; [by left|].
  destruct (isspace c) eqn:Hc; [done|]. right. by exists c, s.
Qed.

Lemma rstrip_cons c s :
  isspace c = false → rstrip (String c s) = String c (rstrip s).
Proof. intros Hc. simpl. rewrite Hc. by destruct (rstrip s). Qed.

Lemma rstrip_idemp s : rstrip (rstrip s) = rstrip s.
Proof.
  induction s as [|c s IH]; simpl; [done|].
  destruct (rstrip s) as [|d r] eqn:Hr.
  - destruct (isspace c) eqn:Hc; [done|]. simpl. by rewrite Hc.
  - change (rstrip (String c (String d r))) with
      (match rstrip (String d r) with
       | "" => if isspace c then "" else String c ""
       | r' => String c r'
       end).
    by rewrite IH.
Qed.

Lemma lstrip_rstrip_lstrip s : lstrip (rstrip (lstrip s)) = rstrip (lstrip s).
Proof.
  destruct (lstrip_head s) as [->|(c & r & -> & Hc)]; [done|].
  rewrite rstrip_cons by done. simpl. by rewrite Hc.
Qed.

(** Stripping twice is stripping once. *)
Lemma strip_idemp s : strip (strip s) = strip s.
Proof. unfold strip. by rewrite lstrip_rstrip_lstrip, rstrip_idemp. Qed.

Lemma trimmed_parts s : trimmed s → lstrip s = s ∧ rstrip s = s.
Proof.
  unfold trimmed, strip. intros H.
  assert (lstrip s = s) as Hl.
  { rewrite <- H at 1. by rewrite lstrip_rstrip_lstrip. }
  split; [done|]. by rewrite Hl in H.
Qed.

Lemma rstrip_app s t : rstrip t ≠ "" → rstrip (s +:+ t) = s +:+ rstrip t.
Proof.
  intros Ht. induction s as [|c s IH]; [done|].
  rewrite !str_app_cons. simpl. rewrite IH.
  destruct (s +:+ rstrip t) as [|d r] eqn:Hr; [|done].
  destruct s; [|done]. by rewrite str_app_empty_l in Hr.
Qed.

(** Trimmed strings that are not empty, one after the other. *)
Lemma trimmed_app s t :
  trimmed s → s ≠ "" → trimmed t → t ≠ "" →
  trimmed (s +:+ t) ∧ s +:+ t ≠ "".
Proof.
  intros [Hls _]%trimmed_parts Hs [_ Hrt]%trimmed_parts Ht.
  destruct s as [|c s]; [done|]. split; [|by rewrite str_app_cons].
  apply lstrip_fixed in Hls. unfold trimmed, strip.
  rewrite str_app_cons. simpl lstrip. rewrite Hls.
  rewrite <- str_app_cons, rstrip_app by (by rewrite Hrt). by rewrite Hrt.
Qed.

Lemma trimmed_join (l : list string) :
  Forall (λ s, trimmed s ∧ s ≠ "") l →
  trimmed (join "" l) ∧ (l ≠ [] → join "" l ≠ "").
Proof.
  induction 1 as [|x l [Hx Hne] Hl IH]; [done|].
  destruct l as [|y l]; [done|].
  destruct IH as [IH1 IH2].
  change (join "" (x :: y :: l)) with (x +:+ join "" (y :: l)).
  destruct (trimmed_app x (join "" (y :: l))) as [? ?]; auto.
Qed.

Lemma get_text_strip_trimmed n : trimmed (get_text_strip n).
Proof.
  unfold get_text_strip. apply trimmed_join.
  apply Forall_forall. intros s [Hs Hne]%list_elem_of_In%filter_In.
  apply list_elem_of_In, list_elem_of_fmap in Hs as (s0 & -> & _).
  split; [apply strip_idemp|].
  by apply negb_true_iff, bool_decide_eq_false in Hne.
Qed.

(** X6. Every header cell and every data cell of an extracted table is
    trimmed: stripping it again changes nothing. *)
Theorem extract_table_cells_trimmed (tbl : node) :
  Forall trimmed (headers (extract_table tbl)) ∧
  Forall (Forall trimmed) (rows (extract_table tbl)).
Proof.
  assert (∀ l : list node, Forall trimmed (get_text_strip <$> l)) as Hcells.
  { intros l. apply Forall_fmap, Forall_true. intros n.
    apply get_text_strip_trimmed. }
  split.
  - unfold extract_table, extract_header. simpl.
    repeat case_match; first [apply Hcells|constructor].
  - unfold extract_table. simpl.
    destruct (find_all ["tr"] tbl) as [|first rest]; [done|].
    rewrite rows_loop_filter. simpl app.
    apply Forall_forall. intros r [Hr _]%list_elem_of_In%filter_In.
    apply list_elem_of_In, list_elem_of_fmap in Hr as (row & -> & _).
    apply Hcells.
Qed.

(** ** The cleaned text *)

Lemma chars_app s t : chars (s +:+ t) = chars s ++ chars t.
Proof.
  induction s as [|c s IH]; [done|]. rewrite str_app_cons. simpl.
  by rewrite <- IH.
Qed.

Lemma lstrip_chars P s : Forall P (chars s) → Forall P (chars (lstrip s)).
Proof.
  induction s as [|c s IH]; simpl; [done|]. intros [Hc Hs]%Forall_cons.
  destruct (isspace c); [by apply IH|by constructor].
Qed.

Lemma rstrip_chars P s : Forall P (chars s) → Forall P (chars (rstrip s)).
Proof.
  induction s as [|c s IH]; simpl; [done|]. intros [Hc Hs]%Forall_cons.
  specialize (IH Hs). destruct (rstrip s) as [|d r].
  - destruct (isspace c); [done|]. simpl. by constructor.
  - simpl. by constructor.
Qed.

Lemma strip_chars P s : Forall P (chars s) → Forall P (chars (strip s)).
Proof. intros H. by apply rstrip_chars, lstrip_chars. Qed.

Lemma split_dspace_go_chars P n : ∀ s cur,
  (String.length s ≤ n)%nat →
  Forall P (chars cur) → Forall P (chars s) →
  Forall (λ piece, Forall P (chars piece)) (split_dspace_go cur s).
Proof.
  induction n as [|n IH]; intros s cur Hlen Hcur Hs.
  - destruct s; [|simpl in Hlen; lia]. simpl. by constructor.
  - destruct s as [|c s]; [simpl; by constructor|].
    simpl in Hlen. apply Forall_cons in Hs as [Hc Hs].
    assert (Forall P (chars (cur +:+ String c ""))) as Hcur'.
    { rewrite chars_app. apply Forall_app. split; [done|by constructor]. }
    destruct s as [|d s].
    + simpl. by constructor.
    + change (split_dspace_go cur (String c (String d s))) with
        (if bool_decide (c = " "%char) && bool_decide (d = " "%char)
         then cur :: split_dspace_go "" s
         else split_dspace_go (cur +:+ String c "") (String d s)).
      destruct (bool_decide (c = " "%char) && bool_decide (d = " "%char)).
      * constructor; [done|]. apply Forall_cons in Hs as [_ Hs].
        apply IH; [simpl in Hlen; lia|constructor|done].
      * apply IH; [lia|done|done].
Qed.

Lemma splitlines_go_chars n : ∀ s cur,
  (String.length s ≤ n)%nat →
  Forall (λ c, islinebreak c = false) (chars cur) →
  Forall (λ line, Forall (λ c, islinebreak c = false) (chars line))
    (splitlines_go cur s).
Proof.
  induction n as [|n IH]; intros s cur Hlen Hcur.
  - destruct s; [|simpl in Hlen; lia]. simpl.
    case_bool_decide; by repeat constructor.
  - destruct s as [|c s].
    { simpl. case_bool_decide; by repeat constructor. }
    simpl in Hlen. simpl. destruct (islinebreak c) eqn:Hc.
    + destruct s as [|d s]; [by repeat constructor|].
      destruct (bool_decide (c = "013"%char) && bool_decide (d = "010"%char));
        (constructor; [done|]); apply IH; simpl in *; try lia; constructor.
    + apply IH; [lia|]. rewrite chars_app. apply Forall_app.
      split; [done|]. by repeat constructor.
Qed.

Lemma splitlines_go_push c cur s :
  islinebreak c = false →
  splitlines_go cur (String c s) = splitlines_go (cur +:+ String c "") s.
Proof. intros Hc. simpl. by rewrite Hc. Qed.

Lemma splitlines_go_line line cur s :
  Forall (λ c, islinebreak c = false) (chars line) →
  splitlines_go cur (line +:+ s) = splitlines_go (cur +:+ line) s.
Proof.
  revert cur. induction line as [|c line IH]; intros cur Hline.
  - by rewrite str_app_empty_l, str_app_empty_r.
  - apply Forall_cons in Hline as [Hc Hline].
    rewrite str_app_cons, splitlines_go_push by done.
    rewrite IH by done. by rewrite str_app_assoc.
Qed.

(** Splitting the joined lines gives the lines back. *)
Lemma splitlines_join (chunks : list string) :
  Forall clean_line chunks → splitlines (join nl chunks) = chunks.
Proof.
  induction 1 as [|x l (Hne & _ & Hx) Hl IH]; [done|].
  unfold splitlines in *. destruct l as [|y l].
  - simpl join.
    transitivity (splitlines_go "" (x +:+ "")); [by rewrite str_app_empty_r|].
    rewrite splitlines_go_line by done. simpl. rewrite str_app_empty_l.
    by rewrite bool_decide_eq_false_2.
  - change (join nl (x :: y :: l)) with (x +:+ nl +:+ join nl (y :: l)).
    rewrite splitlines_go_line by done. rewrite str_app_empty_l.
    apply Forall_cons in Hl as [(Hy & _ & _) _].
    destruct (join nl (y :: l)) as [|d rest] eqn:Hj.
    { destruct y; [done|]. destruct l; discriminate. }
    change (x :: splitlines_go "" (String d rest) = x :: y :: l).
    by rewrite IH.
Qed.

(** X7. The cleaned text is made of lines none of which is empty, begins
    or ends with white space, or contains a line break; they are joined by
    single line feeds, so that splitting the cleaned text into lines gives
    exactly these lines back. *)
Theorem clean_text_lines (soup : node) :
  ∃ chunks,
    clean_text soup = join nl chunks ∧ Forall clean_line chunks ∧
    splitlines (clean_text soup) = chunks.
Proof.
  assert (∃ chunks, clean_text soup = join nl chunks ∧ Forall clean_line chunks)
    as (chunks & Heq & Hclean); [|exists chunks; split; [done|split; [done|]];
                                  rewrite Heq; by apply splitlines_join].
  unfold clean_text. eexists. split; [reflexivity|].
  apply Forall_forall. intros chunk [Hin Hne]%list_elem_of_In%filter_In.
  apply negb_true_iff, bool_decide_eq_false in Hne.
  apply list_elem_of_In, list_elem_of_fmap in Hin as (phrase & -> & Hin).
  apply list_elem_of_bind in Hin as (line & Hphrase & Hline).
  apply list_elem_of_fmap in Hline as (raw & -> & Hraw).
  split; [done|]. split; [apply strip_idemp|].
  apply strip_chars.
  assert (Forall (λ c, islinebreak c = false) (chars (strip raw))) as Hclean.
  { apply strip_chars.
    pose proof (splitlines_go_chars _ _ "" (Nat.le_refl _)
                  (Forall_nil_2 _) : Forall _ (splitlines
                    (get_text (extract_all ["script"; "style"] soup)))) as H.
    rewrite Forall_forall in H. by apply H. }
  pose proof (split_dspace_go_chars _ _ (strip raw) "" (Nat.le_refl _)
                (Forall_nil_2 _) Hclean) as H.
  rewrite Forall_forall in H. by apply H.
Qed.

(** ** Removing elements *)

Lemma extract_all_tag names nm a cs :
  extract_all names (Tag nm a cs)
  = Tag nm a (extract_all names
                <$> List.filter (λ c, negb (has_name names c)) cs).
Proof.
  simpl. f_equal. induction cs as [|c cs IH]; simpl; [done|].
  destruct (has_name names c); simpl; by rewrite IH.
Qed.

Lemma extract_all_has_name names names' n :
  has_name names' (extract_all names n) = has_name names' n.
Proof. by destruct n. Qed.

Lemma extract_all_descendants names n d :
  d ∈ descendants (extract_all names n) → has_name names d = false.
Proof.
  revert d. induction n as [s|s|nm a cs IH] using node_tree_ind; intros d.
  - simpl. by intros ?%elem_of_nil.
  - simpl. by intros ?%elem_of_nil.
  - rewrite extract_all_tag.
    intros (c' & Hc' & Hd)%elem_of_descendants_tag.
    apply list_elem_of_fmap in Hc' as (c & -> & Hc).
    apply list_elem_of_In, filter_In in Hc as [Hc Hkeep].
    apply negb_true_iff in Hkeep.
    destruct Hd as [->|Hd]; [by rewrite extract_all_has_name|].
    rewrite Forall_forall in IH. apply (IH c); [|done].
    by apply list_elem_of_In.
Qed.

Lemma strings_tag nm a cs :
  strings (Tag nm a cs)
  = cs ≫= (λ c, match c with
                 | NavigableString s => [s]
                 | Tag _ _ _ | OtherString _ => []
                 end ++ strings c).
Proof.
  unfold strings. simpl. induction cs as [|c cs IH]; [done|].
  simpl. rewrite omap_app, IH. by destruct c.
Qed.

Lemma extract_all_strings names n :
  strings (extract_all names n) `sublist_of` strings n.
Proof.
  induction n as [s|s|nm a cs IH] using node_tree_ind; [done|done|].
  rewrite extract_all_tag, !strings_tag.
  induction IH as [|c cs Hc _ IHcs]; simpl; [done|].
  destruct (has_name names c) eqn:Hname; simpl.
  - by apply sublist_inserts_l.
  - apply sublist_app; [|done]. apply sublist_app; [|done].
    by destruct c.
Qed.

(** X8. After the script and style elements have been taken out, the
    tree has no element with one of these names at any depth, and its text
    runs are text runs of the page, in the same order: what stands inside a
    script or style element never reaches the cleaned text, and nothing is
    added. *)
Theorem extract_all_removes (names : list string) (n : node) :
  find_all names (extract_all names n) = [] ∧
  strings (extract_all names n) `sublist_of` strings n.
Proof.
  split; [|apply extract_all_strings].
  unfold find_all.
  destruct (List.filter _ _) as [|d l] eqn:Hf; [done|exfalso].
  assert (d ∈ List.filter (has_name names)
                 (descendants (extract_all names n))) as Hd
    by (rewrite Hf; left).
  apply list_elem_of_In, filter_In in Hd as [Hd Hname].
  apply list_elem_of_In, extract_all_descendants in Hd. congruence.
Qed.

(** ** The scraping endpoint *)

(** What a run of [scrape_visual_data] that returns has done. *)
Lemma scrape_visual_data_returns url w path w' :
  scrape_visual_data url w = (Ok path, w') →
  path = markdown_s3_path ∧
  ∃ r md,
    network (requests w) url = Some r ∧
    requests w'
    = requests w ++ url :: image_urls urljoin url
                             (find_all ["img"] (html_parser (text r))) ∧
    puts w' = puts w ++ [(markdown_s3_path, md, "text/markdown")].
Proof.
  unfold OSWebScrap.scrape_visual_data, bind at 1, OSWebScrap.requests_get.
  destruct (network (requests w) url) as [r|] eqn:Hnet; [|done].
  unfold bind at 1, raise_for_status.
  destruct ((400 <=? status_code r) && (status_code r <? 600))%nat; [done|].
  unfold ret at 1, bind at 1.
  destruct (OSWebScrap.scrape_images network urljoin b64encode url 0
              (find_all ["img"] (html_parser (text r))) [] (requested url w))
    as [[images|] w1] eqn:Himg; [|done].
  pose proof (scrape_images_well_formed _ _ _ _ _ _ _ Himg
                (Forall_nil_2 _)) as Hwf.
  pose proof (scrape_images_puts _ _ _ _ _ _ _ Himg) as Hputs.
  pose proof (scrape_images_requested _ _ _ _ _ _ _ Himg) as Hreqs.
  unfold bind at 1. rewrite render_closed by done.
  unfold bind, upload_file_to_s3, ret. simpl.
  destruct (put_object _ _ _); intros [= <- <-]; (split; [done|]);
    eexists r, _; (split; [done|]); simpl; rewrite Hreqs, Hputs; simpl;
    by rewrite <- app_assoc.
Qed.

(** X9. [scrape_url] answers a URL its validator refuses with status 400
    before any request. When it answers normally, both paths of the body
    are the one fixed path, the page has been requested twice and the
    Markdown text has been uploaded twice under that same key. When the
    first request for the page fails, the exception is not handled and
    nothing is uploaded. *)
Theorem scrape_url_scrapes_twice (url : string) (w : world) :
  (enterprise_is_valid_url url = false →
   scrape_url url w = (Failed 400 "Invalid URL", w)) ∧
  (∀ body w',
     scrape_url url w = (Responded body, w') →
     response_markdown_s3_path body = markdown_s3_path ∧
     final_markdown_s3_path body = markdown_s3_path ∧
     ∃ urls1 urls2 md1 md2,
       requests w' = requests w ++ url :: urls1 ++ url :: urls2 ∧
       puts w' = puts w ++ [(markdown_s3_path, md1, "text/markdown");
                            (markdown_s3_path, md2, "text/markdown")]) ∧
  (enterprise_is_valid_url url = true →
   network (requests w) url = None →
   scrape_url url w = (Unhandled, requested url w)).
Proof.
  unfold Api.scrape_url, scrape_text_data_with_images.
  split; [by intros ->|split].
  - intros body w'. destruct (enterprise_is_valid_url url); [|done]. simpl.
    destruct (OSWebScrap.scrape_visual_data _ _ _ _ _ _ _ url w)
      as [[path1|] w1] eqn:H1; [|done].
    destruct (OSWebScrap.scrape_visual_data _ _ _ _ _ _ _ url w1)
      as [[path2|] w2] eqn:H2; [|done].
    intros [= <- <-]. simpl.
    apply scrape_visual_data_returns
      in H1 as (-> & r1 & md1 & _ & Hreq1 & Hput1).
    apply scrape_visual_data_returns
      in H2 as (-> & r2 & md2 & _ & Hreq2 & Hput2).
    split; [done|]. split; [done|].
    exists (image_urls urljoin url (find_all ["img"] (html_parser (text r1)))),
      (image_urls urljoin url (find_all ["img"] (html_parser (text r2)))),
      md1, md2.
    rewrite Hreq2, Hreq1, Hput2, Hput1. rewrite <- !app_assoc. split; reflexivity.
  - intros -> Hnet. simpl.
    unfold OSWebScrap.scrape_visual_data, bind at 1, OSWebScrap.requests_get.
    by rewrite Hnet.
Qed.

(** ** The newest Markdown file *)

(** Is the time [t] later than the time remembered so far? *)
Lemma latest_markdown_cons {A} (remember : s3_object → A) obj rest latest time :
  latest_markdown remember (obj :: rest) latest time
  = if is_markdown obj
       && match time with None => true | Some t => (t <? LastModified obj)%nat end
    then latest_markdown remember rest (Some (remember obj))
           (Some (LastModified obj))
    else latest_markdown remember rest latest time.
Proof. simpl. unfold is_markdown. by destruct (endswith _ _), time. Qed.

(** The loop either leaves what it remembered, no Markdown object being
    later, or remembers a Markdown object that is later than what was
    remembered and at least as late as every other Markdown object. *)
Lemma latest_markdown_newest {A} (remember : s3_object → A) contents latest time :
  (latest_markdown remember contents latest time = (latest, time) ∧
   ∀ o, o ∈ contents → is_markdown o = true →
        ∃ t, time = Some t ∧ (LastModified o ≤ t)%nat) ∨
  (∃ l1 obj l2,
     contents = l1 ++ obj :: l2 ∧ is_markdown obj = true ∧
     latest_markdown remember contents latest time
     = (Some (remember obj), Some (LastModified obj)) ∧
     (∀ t, time = Some t → (t < LastModified obj)%nat) ∧
     (∀ o, o ∈ l1 → is_markdown o = true →
           (LastModified o < LastModified obj)%nat) ∧
     (∀ o, o ∈ l2 → is_markdown o = true →
           (LastModified o ≤ LastModified obj)%nat)).
Proof.
  revert latest time.
  induction contents as [|obj rest IH]; intros latest time.
  { left. split; [done|]. by intros o ?%elem_of_nil. }
  rewrite latest_markdown_cons.
  destruct (is_markdown obj
            && match time with
               | None => true
               | Some t => (t <? LastModified obj)%nat
               end) eqn:Hbeats.
  - apply andb_true_iff in Hbeats as [Hmd Hlater]. right.
    destruct (IH (Some (remember obj)) (Some (LastModified obj)))
      as [[-> Hrest]|(l1 & o' & l2 & -> & Hmd' & -> & Hafter & Hl1 & Hl2)].
    + exists [], obj, rest. split; [done|]. split; [done|]. split; [done|].
      split.
      { intros t ->. by apply Nat.ltb_lt. }
      split; [by intros o ?%elem_of_nil|].
      intros o Ho Hmdo. destruct (Hrest o Ho Hmdo) as (t & [= <-] & ?). done.
    + exists (obj :: l1), o', l2. split; [done|]. split; [done|].
      split; [done|]. specialize (Hafter _ eq_refl). split.
      { intros t ->. apply Nat.ltb_lt in Hlater. lia. }
      split; [|done].
      intros o [->|Ho]%elem_of_cons Hmdo; [done|by apply Hl1].
  - destruct (IH latest time)
      as [[-> Hrest]|(l1 & o' & l2 & -> & Hmd' & -> & Hafter & Hl1 & Hl2)].
    + left. split; [done|].
      intros o [->|Ho]%elem_of_cons Hmdo; [|by apply Hrest].
      rewrite Hmdo in Hbeats. simpl in Hbeats.
      destruct time as [t|]; [|done]. exists t. split; [done|].
      apply Nat.ltb_ge in Hbeats. done.
    + right. exists (obj :: l1), o', l2. split; [done|]. split; [done|].
      split; [done|]. split; [done|]. split; [|done].
      intros o [->|Ho]%elem_of_cons Hmdo; [|by apply Hl1].
      rewrite Hmdo in Hbeats. simpl in Hbeats.
      destruct time as [t|]; [|done].
      apply Nat.ltb_ge in Hbeats. specialize (Hafter t eq_refl). lia.
Qed.

Lemma last_segment_go_plain cur name :
  Forall (λ c, c ≠ "/"%char) (chars name) →
  last_segment_go cur name = cur +:+ name.
Proof.
  revert cur. induction name as [|c name IH]; intros cur Hname; simpl.
  - by rewrite str_app_empty_r.
  - apply Forall_cons in Hname as [Hc Hname].
    rewrite bool_decide_eq_false_2 by done.
    rewrite IH by done. by rewrite str_app_assoc.
Qed.

Lemma last_segment_go_after_slash cur folder name :
  Forall (λ c, c ≠ "/"%char) (chars name) →
  last_segment_go cur (folder +:+ "/" +:+ name) = name.
Proof.
  intros Hname. revert cur. induction folder as [|c folder IH]; intros cur.
  - rewrite str_app_empty_l. change ("/" +:+ name) with (String "/" name).
    simpl. by rewrite last_segment_go_plain.
  - rewrite str_app_cons. simpl. case_bool_decide; apply IH.
Qed.

(** What follows the last slash of a key. *)
Lemma last_segment_after_slash folder name :
  Forall (λ c, c ≠ "/"%char) (chars name) →
  last_segment (folder +:+ "/" +:+ name) = name.
Proof. apply last_segment_go_after_slash. Qed.

(** X10. When [fetch_WebScrapMarkdowns_from_s3] answers, the service type
    is one of the two names, and the file it names is a Markdown object of
    the folder of that service which is strictly newer than every Markdown
    object listed before it and at least as new as every one listed after
    it; the name returned is what follows the last slash of its key and
    the link is the signed URL of that key. *)
Theorem fetch_WebScrapMarkdowns_newest (service_type : string)
    (body : markdown_link) :
  fetch_WebScrapMarkdowns_from_s3 service_type = Responded body →
  ∃ s3_folder response l1 obj l2,
    (service_type = "Open Source" ∧
     s3_folder = "scraped_data/scraped_os_data/" ∨
     service_type = "Enterprise" ∧
     s3_folder = "scraped_data/scraped_en_data/") ∧
    list_objects_v2 s3_folder None = inr response ∧
    Contents response = Some (l1 ++ obj :: l2) ∧
    is_markdown obj = true ∧
    (∀ o, o ∈ l1 → is_markdown o = true →
          (LastModified o < LastModified obj)%nat) ∧
    (∀ o, o ∈ l2 → is_markdown o = true →
          (LastModified o ≤ LastModified obj)%nat) ∧
    file_name body = last_segment (Key obj) ∧
    generate_presigned_url (Key obj) = inr (download_url body) ∧
    (∀ folder name,
       Key obj = folder +:+ "/" +:+ name →
       Forall (λ c, c ≠ "/"%char) (chars name) →
       file_name body = name).
Proof.
  unfold Api.fetch_WebScrapMarkdowns_from_s3, fetch_WebScrapMarkdowns_body.
  repeat case_bool_decide; simpl; [| |done];
    (destruct (list_objects_v2 _ None) as [msg|response] eqn:Hlist; [done|]);
    simpl;
    (destruct (Contents response) as [[|o0 contents]|] eqn:Hcontents;
       [done| |done]);
    (destruct (latest_markdown_newest Key (o0 :: contents) None None)
       as [[-> _]|(l1 & obj & l2 & Hsplit & Hmd & -> & _ & Hl1 & Hl2)];
       [done|]);
    simpl;
    (destruct (generate_presigned_url (Key obj)) as [msg|url] eqn:Hurl;
       [done|]);
    simpl; intros [= <-]; simpl;
    eexists _, response, l1, obj, l2; rewrite <- Hsplit;
    (split; [(by left) || (by right)|]);
    repeat (split; [done|]);
    intros folder name -> Hname; by apply last_segment_after_slash.
Qed.

(** X11. [fetch_WebScrapMarkdowns_from_s3] never answers with status 400
    or 404: the [HTTPException]s raised inside its [try] block are caught
    by its own handler, so an unknown service type, a folder without
    objects and a folder without Markdown objects are all answered with
    status 500, the text of the inner exception following the fixed
    prefix; so is a failure of the listing. *)
Theorem fetch_WebScrapMarkdowns_errors_are_500 (service_type : string) :
  ((∃ body, fetch_WebScrapMarkdowns_from_s3 service_type = Responded body) ∨
   (∃ detail,
      fetch_WebScrapMarkdowns_from_s3 service_type = Failed 500 detail)) ∧
  (service_type ≠ "Open Source" → service_type ≠ "Enterprise" →
   fetch_WebScrapMarkdowns_from_s3 service_type
   = Failed 500
       ("Failed to fetch markdown downloads: "
        +:+ str_of_http_exception 400
              "Invalid service type! Choose 'Open Source' or 'Enterprise'.")) ∧
  (∀ message,
     list_objects_v2 "scraped_data/scraped_os_data/" None = inl message →
     fetch_WebScrapMarkdowns_from_s3 "Open Source"
     = Failed 500 ("Failed to fetch markdown downloads: " +:+ message)) ∧
  (∀ response,
     list_objects_v2 "scraped_data/scraped_os_data/" None = inr response →
     Contents response = None ∨ Contents response = Some [] →
     fetch_WebScrapMarkdowns_from_s3 "Open Source"
     = Failed 500
         ("Failed to fetch markdown downloads: "
          +:+ str_of_http_exception 404
                "No markdown files found in S3 for Open Source.")) ∧
  (∀ response contents,
     list_objects_v2 "scraped_data/scraped_os_data/" None = inr response →
     Contents response = Some contents → contents ≠ [] →
     (∀ o, o ∈ contents → is_markdown o = false) →
     fetch_WebScrapMarkdowns_from_s3 "Open Source"
     = Failed 500
         ("Failed to fetch markdown downloads: "
          +:+ str_of_http_exception 404
                "No markdown files found in Open Source folder.")).
Proof.
  unfold Api.fetch_WebScrapMarkdowns_from_s3.
  split; [|split; [|split; [|split]]].
  - destruct (fetch_WebScrapMarkdowns_body _ _ _); eauto.
  - intros H1 H2. unfold fetch_WebScrapMarkdowns_body.
    by rewrite !bool_decide_eq_false_2 by done.
  - intros message Hlist. unfold fetch_WebScrapMarkdowns_body. simpl.
    by rewrite Hlist.
  - intros response Hlist Hnone. unfold fetch_WebScrapMarkdowns_body. simpl.
    rewrite Hlist. simpl. by destruct Hnone as [-> | ->].
  - intros response contents Hlist Hcontents Hne Hnomd.
    unfold fetch_WebScrapMarkdowns_body. simpl. rewrite Hlist. simpl.
    rewrite Hcontents. destruct contents as [|o0 contents]; [done|].
    destruct (latest_markdown_newest Key (o0 :: contents) None None)
      as [[-> _]|(l1 & obj & l2 & Hsplit & Hmd & _)]; [done|].
    rewrite Hnomd in Hmd; [done|]. rewrite Hsplit.
    apply elem_of_app. right. by left.
Qed.

(** ** The limits on a PDF *)

Lemma size_over_limit (pdf_size : Z) :
  (Qc_of_Z MAX_FILE_SIZE_MB < Qc_of_Z pdf_size / Qc_of_Z (1024 * 1024))%Qc
  ↔ (5 * 1024 * 1024 < pdf_size)%Z.
Proof.
  assert (0 < Qc_of_Z (1024 * 1024))%Qc as Hpos.
  { rewrite <- Z2Qc_inj_0. by apply Z2Qc_inj_lt. }
  rewrite (Qcmult_lt_mono_pos_r _ _ _ Hpos).
  unfold Qcdiv. rewrite <- Qcmult_assoc, Qcmult_inv_l, Qcmult_1_r.
  - by rewrite <- Z2Qc_inj_mul, <- Z2Qc_inj_lt.
  - by apply not_symmetry, Qclt_not_eq.
Qed.

(** X12. [check_pdf_constraints] reports success exactly when the size
    and the number of pages of the file can be read, the size is at most
    5 * 1024 * 1024 bytes and there are at most 5 pages. A file that is
    too large gives a result with the key [error] alone, and so does a
    file within the size limit that has too many pages; the size is
    compared first. When the size or the number of pages cannot be read,
    the function does not return the dictionary that line 145 builds: the
    operator [@] that follows it on that line raises a [TypeError], which
    reaches the caller. *)
Theorem check_pdf_constraints_limits (pdf_path : string) :
  (check_pdf_constraints pdf_path
   = inr ({[ "success" := VBool true ]} : gmap string value) ↔
   ∃ pdf_size pdf_page_count,
     getsize pdf_path = inr pdf_size ∧
     page_count pdf_path = inr pdf_page_count ∧
     (pdf_size ≤ 5 * 1024 * 1024)%Z ∧ (pdf_page_count ≤ 5)%Z) ∧
  (∀ pdf_size pdf_page_count,
     getsize pdf_path = inr pdf_size →
     page_count pdf_path = inr pdf_page_count →
     (5 * 1024 * 1024 < pdf_size)%Z →
     check_pdf_constraints pdf_path
     = inr ({[ "error" := VStr (file_too_large_message pdf_size) ]}
            : gmap string value)) ∧
  (∀ pdf_size pdf_page_count,
     getsize pdf_path = inr pdf_size →
     page_count pdf_path = inr pdf_page_count →
     (pdf_size ≤ 5 * 1024 * 1024)%Z → (5 < pdf_page_count)%Z →
     check_pdf_constraints pdf_path
     = inr ({[ "error" := VStr (too_many_pages_message pdf_page_count) ]}
            : gmap string value)) ∧
  ((∃ message, getsize pdf_path = inl message) ∨
   (∃ message, page_count pdf_path = inl message) →
   check_pdf_constraints pdf_path
   = inl (LibraryError
            "unsupported operand type(s) for @: 'dict' and 'function'")).
Proof.
  unfold Api.check_pdf_constraints, check_pdf_constraints_body.
  destruct (getsize pdf_path) as [msg1|pdf_size] eqn:Hsize; simpl.
  { split; [|split; [done|split; [done|done]]].
    split; [done|by intros (? & ? & ? & _)]. }
  destruct (page_count pdf_path) as [msg2|pdf_page_count] eqn:Hpages; simpl.
  { split; [|split; [done|split; [done|done]]].
    split; [done|by intros (? & ? & _ & ? & _)]. }
  assert (∀ key (v v' : value),
            key ≠ "success" →
            inr ({[ key := v ]} : gmap string value)
            ≠@{E (gmap string value)} inr {[ "success" := v' ]}) as Hne.
  { intros key v v' Hkey H.
    apply (f_equal (λ m : E (gmap string value),
                      match m with
                      | inr m => m !! "success"
                      | inl _ => None
                      end)) in H.
    by rewrite lookup_singleton_eq, lookup_singleton_ne in H. }
  case_bool_decide as Hbig.
  { apply size_over_limit in Hbig.
    split; [|split; [by intros ? ? [= <-] _ _|split;
      [intros ? ? [= <-] _ ? _; lia|]]].
    - split; [by intros ?%Hne|intros (? & ? & [= <-] & _ & ? & _); lia].
    - by intros [[? ?]|[? ?]]. }
  rewrite size_over_limit in Hbig.
  case_bool_decide as Hmany.
  { split; [|split; [intros ? ? [= <-] _ ?; lia|split;
      [by intros ? ? _ [= <-] _ _|]]].
    - split; [by intros ?%Hne|].
      intros (? & ? & _ & [= <-] & _ & ?). unfold MAX_PAGE_COUNT in *. lia.
    - by intros [[? ?]|[? ?]]. }
  split; [|split; [intros ? ? [= <-] _ ?; lia|split]].
  - split; [|done]. intros _. exists pdf_size, pdf_page_count.
    unfold MAX_PAGE_COUNT in *. repeat split; [done..|lia|lia].
  - intros ? ? _ [= <-] _ ?. unfold MAX_PAGE_COUNT in *. lia.
  - by intros [[? ?]|[? ?]].
Qed.

(** ** The newest folder *)

(** The loop over the subfolders ends with what it was given or with a
    subfolder and the time of one of its Markdown objects; the time it
    ends with is not before the time it was given nor before the time of
    any Markdown object of the subfolders. *)
Lemma latest_folder_loop_newest subfolders latest time found :
  latest_folder_loop subfolders latest time = inr found →
  (found = (latest, time) ∨
   ∃ folder obj,
     folder ∈ subfolders ∧ listed_markdown [folder] obj ∧
     found = (Some folder, Some (LastModified obj))) ∧
  (∀ t0, time = Some t0 → ∃ t, found.2 = Some t ∧ (t0 ≤ t)%nat) ∧
  (∀ o, listed_markdown subfolders o →
        ∃ t, found.2 = Some t ∧ (LastModified o ≤ t)%nat).
Proof.
  revert latest time.
  induction subfolders as [|folder rest IH]; intros latest time; simpl.
  { intros [= <-]. split; [by left|]. split; [by eauto|].
    by intros o (? & ? & ? & ?%elem_of_nil & _). }
  destruct (list_objects_v2 folder None) as [msg|response] eqn:Hlist;
    [done|]. simpl.
  destruct (Contents response) as [contents|] eqn:Hcontents.
  - destruct (latest_markdown_newest (λ _ : s3_object, folder) contents
                latest time)
      as [[-> Hold]|(l1 & obj & l2 & -> & Hmd & -> & Hafter & Hl1 & Hl2)].
    + intros (Hfound & Hmono & Hnew)%IH. split; [|split; [done|]].
      { destruct Hfound as [->|(f & o & Hf & Ho & ->)]; [by left|right].
        exists f, o. split; [by right|done]. }
      intros o (f & r & c & [->|Hf]%elem_of_cons & Hr & Hc & Ho & Hmdo).
      * rewrite Hlist in Hr. injection Hr as <-.
        rewrite Hcontents in Hc. injection Hc as <-.
        destruct (Hold o Ho Hmdo) as (t & -> & Hle).
        destruct (Hmono t eq_refl) as (t' & -> & ?). exists t'.
        split; [done|lia].
      * apply Hnew. by exists f, r, c.
    + intros (Hfound & Hmono & Hnew)%IH.
      destruct (Hmono _ eq_refl) as (t & Ht & Hle).
      split; [|split].
      { right. destruct Hfound as [->|(f & o & Hf & Ho & ->)].
        - exists folder, obj. split; [by left|]. split; [|done].
          exists folder, response, (l1 ++ obj :: l2).
          split; [by left|]. split; [done|]. split; [done|].
          split; [|done]. apply elem_of_app. right. by left.
        - exists f, o. split; [by right|done]. }
      { intros t0 Ht0. specialize (Hafter t0 Ht0). exists t.
        split; [done|lia]. }
      intros o (f & r & c & [->|Hf]%elem_of_cons & Hr & Hc & Ho & Hmdo).
      * rewrite Hlist in Hr. injection Hr as <-.
        rewrite Hcontents in Hc. injection Hc as <-.
        exists t. split; [done|].
        apply elem_of_app in Ho as [Ho|[->|Ho]%elem_of_cons].
        -- specialize (Hl1 o Ho Hmdo). lia.
        -- done.
        -- specialize (Hl2 o Ho Hmdo). lia.
      * apply Hnew. by exists f, r, c.
  - intros (Hfound & Hmono & Hnew)%IH. split; [|split; [done|]].
    { destruct Hfound as [->|(f & o & Hf & Ho & ->)]; [by left|right].
      exists f, o. split; [by right|done]. }
    intros o (f & r & c & [->|Hf]%elem_of_cons & Hr & Hc & Ho & Hmdo).
    + rewrite Hlist in Hr. injection Hr as <-. congruence.
    + apply Hnew. by exists f, r, c.
Qed.

(** One link for every file, in order, after the links given. *)
Lemma download_links_each markdown_files given links :
  download_links markdown_files given = inr links →
  ∃ new,
    links = given ++ new ∧
    Forall2
      (λ file_key link,
         link_file_name link = last_segment file_key ∧
         generate_presigned_url file_key = inr (link_download_url link))
      markdown_files new.
Proof.
  revert given. induction markdown_files as [|file_key rest IH];
    intros given; simpl.
  - intros [= <-]. exists []. by rewrite app_nil_r.
  - destruct (generate_presigned_url file_key) as [msg|url] eqn:Hurl;
      [done|]. simpl.
    intros (new & -> & Hnew)%IH. eexists (_ :: new).
    rewrite <- app_assoc. split; [done|]. by constructor.
Qed.

(** X13. When [fetch_latest_markdown_downloads] answers, the folder it
    names is one of the subfolders listed below the base folder, it holds
    a Markdown object at least as new as every Markdown object of every
    listed subfolder, and the links are, in order, one for each Markdown
    object of that folder, with the last part of its key as name and its
    signed URL; there is at least one link. *)
Theorem fetch_latest_markdown_downloads_newest (body : markdown_downloads) :
  fetch_latest_markdown_downloads = Responded body →
  ∃ response subfolders folder_response contents newest,
    list_objects_v2 "pdf_processing_pipeline/markdown_outputs/" (Some "/")
    = inr response ∧
    CommonPrefixes response = Some subfolders ∧
    latest_folder body ∈ subfolders ∧
    list_objects_v2 (latest_folder body) None = inr folder_response ∧
    Contents folder_response = Some contents ∧
    newest ∈ contents ∧ is_markdown newest = true ∧
    (∀ o, listed_markdown subfolders o →
          (LastModified o ≤ LastModified newest)%nat) ∧
    Forall2
      (λ obj link,
         link_file_name link = last_segment (Key obj) ∧
         generate_presigned_url (Key obj) = inr (link_download_url link))
      (List.filter is_markdown contents) (markdown_download_links body) ∧
    markdown_download_links body ≠ [].
Proof.
  unfold Api.fetch_latest_markdown_downloads,
    fetch_latest_markdown_downloads_body.
  destruct (list_objects_v2 _ (Some "/")) as [msg|response] eqn:Hlist;
    [done|]. simpl.
  destruct (CommonPrefixes response) as [[|sub subs]|] eqn:Hprefixes;
    [done| |done].
  destruct (Api.latest_folder_loop _ (sub :: subs) None None)
    as [e|found] eqn:Hloop; [done|]. simpl.
  apply latest_folder_loop_newest in Hloop as (Hfound & _ & Hnew).
  destruct Hfound as [->|(folder & obj & Hfolder & Hobj & ->)]; [done|].
  simpl.
  destruct Hobj as (f & r & c & ->%list_elem_of_singleton & Hr & Hc & Hin & Hmd).
  rewrite Hr. simpl. rewrite Hc.
  case_bool_decide as Hfiles.
  { exfalso. apply fmap_nil_inv in Hfiles.
    assert (obj ∈ List.filter (λ obj, endswith (Key obj) ".md") c) as Hobj
      by (by apply list_elem_of_In, filter_In; split;
            [apply list_elem_of_In|]).
    rewrite Hfiles in Hobj. by apply elem_of_nil in Hobj. }
  destruct (Api.download_links _ _ []) as [e|links] eqn:Hlinks; [done|].
  simpl. intros [= <-]. simpl.
  apply download_links_each in Hlinks as (new & -> & Hall). simpl in *.
  exists response, (sub :: subs), r, c, obj.
  repeat (split; [done|]). split; [|split].
  - intros o Ho. destruct (Hnew o Ho) as (t & [= <-] & ?). done.
  - by apply Forall2_fmap_l in Hall.
  - intros ->. apply Forall2_nil_inv_r in Hall. by apply Hfiles.
Qed.

End Properties.

(** ** Instances on sample inputs *)

Lemma is_valid_url_whole_string_witness :
  OSWebScrap.main Samples.net_up (λ _, Samples.txt "") Samples.join_url
    Samples.no_encoding Samples.put_ok "bucket" "region"
    " ftp://example.com/a " Samples.w0
  = (Exited 1, Samples.w0).
Proof.
  apply (is_valid_url_whole_string Samples.net_up (λ _, Samples.txt "")
           Samples.join_url Samples.no_encoding Samples.put_ok "bucket"
           "region" "ftp://example.com/a"); reflexivity.
Defined.

Lemma img_format_from_url_ending_witness :
  img_format_of "http://example.com/Logo.PNG" = "png" ∧
  img_format_of "http://example.com/anim.gif" = "gif" ∧
  img_format_of "http://example.com/photo.webp" = "jpeg".
Proof.
  split; [|split].
  - apply (img_format_from_url_ending Samples.net_up Samples.no_encoding
             "http://example.com/Logo.PNG").
    by exists "http://example.com/logo".
  - apply (img_format_from_url_ending Samples.net_up Samples.no_encoding
             "http://example.com/anim.gif").
    by exists "http://example.com/anim".
  - apply (img_format_from_url_ending Samples.net_up Samples.no_encoding
             "http://example.com/photo.webp");
      intros H%endswith_spec; vm_compute in H; discriminate.
Defined.

Lemma fallback_header_row_is_data_row_witness :
  headers (extract_table Samples.table_td) = ["A"] ∧
  rows (extract_table Samples.table_td) = [["A"]; ["1"]].
Proof.
  destruct (fallback_header_row_is_data_row Samples.table_td) as [H _].
  apply H. reflexivity.
Defined.

Lemma rows_padded_never_truncated_witness :
  (render_rows ["h1"; "h2"] [["a"]; ["a"; "b"; "c"]] "").1
  = [["a"; ""]; ["a"; "b"; "c"]] ∧
  (render_rows ["h1"; "h2"] [["a"]; ["a"; "b"; "c"]] "").2
  = "| a |  |" +:+ nl +:+ "| a | b | c |" +:+ nl.
Proof.
  assert (["h1"; "h2"] ≠ []) as H by discriminate.
  destruct (rows_padded_never_truncated ["h1"; "h2"]
              [["a"]; ["a"; "b"; "c"]] "" H) as (_ & Htext & _).
  split; [reflexivity|]. rewrite Htext. reflexivity.
Defined.

Lemma separator_count_witness :
  occurrences "---" (separator_line ["A"; "B"]) = 2.
Proof.
  apply (separator_count 1 {| headers := ["A"; "B"]; rows := [] |} "").
  discriminate.
Defined.


Lemma sections_only_when_present_witness :
  render "Hello" [] [] Samples.w0
  = (Ok ([], "# Extracted Web Content" +:+ nl +:+ nl +:+ "## Content"
             +:+ nl +:+ nl +:+ "Hello" +:+ nl +:+ nl), Samples.w0) ∧
  OSWebScrap.scrape_visual_data Samples.net_up
    (λ _, Samples.el "p" [Samples.txt "Hello"]) Samples.join_url
    Samples.no_encoding Samples.put_ok "bucket" "region" "http://h/"
    Samples.w0
  = (Ok markdown_s3_path,
     {| requests := ["http://h/"];
        puts := [(markdown_s3_path, content_section "Hello",
                  "text/markdown")] |}).
Proof.
  destruct (sections_only_when_present Samples.net_up
              (λ _, Samples.el "p" [Samples.txt "Hello"]) Samples.join_url
              Samples.no_encoding Samples.put_ok "bucket" "region"
              "Hello" [] [] Samples.w0)
    as (_ & Hnone & _ & _ & _ & _ & Hpage); [constructor|].
  split; [by apply Hnone|].
  apply (Hpage "http://h/" Samples.ok_response); try reflexivity.
  simpl. lia.
Defined.

Lemma image_error_status_is_embedded_witness :
  OSWebScrap.scrape_visual_data Samples.net_page_missing
    (λ _, Samples.page_logo) Samples.join_url Samples.no_encoding
    Samples.put_ok "bucket" "region" "http://h/" Samples.w0
  = (Raise, requested "http://h/" Samples.w0) ∧
  OSWebScrap.scrape_images Samples.net_images_missing Samples.join_url
    Samples.no_encoding "http://h/" 0 [Samples.img_with_alt] []
    (requested "http://h/" Samples.w0)
  = OSWebScrap.scrape_images Samples.net_images_missing Samples.join_url
      Samples.no_encoding "http://h/" 1 []
      [ <["embedded" := "data:image/png;base64,Not Found"]>
          {["alt" := "logo"]} ]
      (requested "http://h/a.png" (requested "http://h/" Samples.w0)) ∧
  OSWebScrap.scrape_images Samples.net_page_only Samples.join_url
    Samples.no_encoding "http://h/" 0 [Samples.img_no_alt] []
    (requested "http://h/" Samples.w0)
  = OSWebScrap.scrape_images Samples.net_page_only Samples.join_url
      Samples.no_encoding "http://h/" 1 [] []
      (requested "http://h/b.webp" (requested "http://h/" Samples.w0)).
Proof.
  split; [|split].
  - destruct (image_error_status_is_embedded Samples.net_page_missing
                (λ _, Samples.page_logo) Samples.join_url Samples.no_encoding
                Samples.put_ok "bucket" "region" "http://h/" Samples.w0)
      as (_ & Hstatus & _).
    apply (Hstatus Samples.not_found); [reflexivity|]. simpl. lia.
  - destruct (image_error_status_is_embedded Samples.net_images_missing
                (λ _, Samples.page_logo) Samples.join_url Samples.no_encoding
                Samples.put_ok "bucket" "region" "http://h/" Samples.w0)
      as (_ & _ & _ & Hbody & _).
    apply (Hbody 0 Samples.img_with_alt [] []
             (requested "http://h/" Samples.w0) "a.png" "http://h/a.png"
             Samples.not_found);
      [by vm_compute|discriminate|reflexivity|reflexivity].
  - destruct (image_error_status_is_embedded Samples.net_page_only
                (λ _, Samples.page_logo) Samples.join_url Samples.no_encoding
                Samples.put_ok "bucket" "region" "http://h/" Samples.w0)
      as (_ & _ & Hfail & _).
    apply (Hfail 0 Samples.img_no_alt [] []
             (requested "http://h/" Samples.w0) "b.webp" "http://h/b.webp");
      [by vm_compute|discriminate|reflexivity|reflexivity].
Defined.


(** ** Checks of the string model on small inputs *)

Example splitlines_sample :
  splitlines ("a" +:+ nl +:+ nl +:+ "b" +:+ String "013"%char nl +:+ "c" +:+ nl)
  = ["a"; ""; "b"; "c"].
Proof. reflexivity. Qed.

Example split_dspace_sample : split_dspace "a   b  " = ["a"; " b"; ""].
Proof. reflexivity. Qed.

Example strip_sample : strip ("  a b " +:+ nl) = "a b".
Proof. reflexivity. Qed.

Example lower_sample : lower "HTTP://Example.COM/A.Pdf" = "http://example.com/a.pdf".
Proof. reflexivity. Qed.

Example clean_text_sample :
  clean_text
    (Samples.el "[document]"
       [Samples.el "p" [Samples.txt "Hello  world "];
        Samples.el "script" [Samples.txt "var x;"];
        Samples.txt (nl +:+ " again" +:+ nl)])
  = "Hello" +:+ nl +:+ "world" +:+ nl +:+ "again".
Proof. reflexivity. Qed.

Example is_valid_url_samples :
  is_valid_url "https://example.com/page" = true ∧
  is_valid_url "https://example.com/a.PDF" = false ∧
  is_valid_url "ftp://example.com/page" = false.
Proof. by vm_compute. Qed.

(** ** Instances of the further properties *)

(** The sample [urljoin] gives a URL for every source. *)
Lemma join_url_resolves (url : string) (img_tags : list node) :
  Forall (resolves Samples.join_url url) img_tags.
Proof.
  apply Forall_forall. intros img_tag _. unfold resolves.
  destruct (source_of img_tag); [by eexists|done].
Qed.


Lemma scrape_images_all_or_nothing_witness :
  (∃ new w',
     OSWebScrap.scrape_images Samples.net_up Samples.join_url
       Samples.no_encoding "http://h/" 0
       [Samples.img_no_src; Samples.img_no_alt] []
       (requested "http://h/" Samples.w0)
     = (Ok ([] ++ new), w') ∧
     length new = 1) ∧
  (∃ w',
     OSWebScrap.scrape_images Samples.net_page_only Samples.join_url
       Samples.no_encoding "http://h/" 0
       [Samples.img_with_alt; Samples.img_no_alt] []
       (requested "http://h/" Samples.w0)
     = (Ok [], w')).
Proof.
  split.
  - destruct (scrape_images_all_or_nothing Samples.net_up Samples.join_url
                Samples.no_encoding "http://h/" 0
                [Samples.img_no_src; Samples.img_no_alt] []
                (requested "http://h/" Samples.w0)
                (join_url_resolves _ _)) as [Hup _].
    destruct Hup as (new & w' & Hrun & Hall).
    { constructor; [by exists Samples.ok_response|constructor]. }
    exists new, w'. split; [done|].
    apply Forall3_length_lr in Hall. by rewrite <- Hall.
  - destruct (scrape_images_all_or_nothing Samples.net_page_only
                Samples.join_url Samples.no_encoding "http://h/" 0
                [Samples.img_with_alt; Samples.img_no_alt] []
                (requested "http://h/" Samples.w0)
                (join_url_resolves _ _)) as [_ Hdown].
    apply Hdown. constructor; [done|]. constructor; [done|constructor].
Defined.

Lemma sanitize_pipe_after_backslash_witness :
  ∃ j, 2 = S j ∧ String.get j (sanitize "a|b") = Some "\"%char.
Proof. apply (sanitize_pipe_after_backslash "a|b" 2). reflexivity. Defined.

Lemma scrape_url_scrapes_twice_witness :
  Api.scrape_url Samples.net_up (λ _, Samples.el "p" [Samples.txt "Hello"])
    Samples.join_url Samples.no_encoding Samples.put_ok "bucket" "region"
    ApiSamples.refuse_all "http://h/" Samples.w0
  = (Failed 400 "Invalid URL", Samples.w0) ∧
  Api.scrape_url Samples.net_down (λ _, Samples.el "p" [Samples.txt "Hello"])
    Samples.join_url Samples.no_encoding Samples.put_ok "bucket" "region"
    ApiSamples.accept_all "http://h/" Samples.w0
  = (Unhandled, requested "http://h/" Samples.w0) ∧
  ∃ urls1 urls2 md1 md2,
    ["http://h/"; "http://h/"] = [] ++ "http://h/" :: urls1 ++ "http://h/" :: urls2 ∧
    [(markdown_s3_path, content_section "Hello", "text/markdown");
     (markdown_s3_path, content_section "Hello", "text/markdown")]
    = [] ++ [(markdown_s3_path, md1, "text/markdown");
             (markdown_s3_path, md2, "text/markdown")].
Proof.
  split; [|split].
  - apply (scrape_url_scrapes_twice Samples.net_up
             (λ _, Samples.el "p" [Samples.txt "Hello"]) Samples.join_url
             Samples.no_encoding Samples.put_ok "bucket" "region"
             ApiSamples.refuse_all "http://h/" Samples.w0).
    reflexivity.
  - apply (scrape_url_scrapes_twice Samples.net_down
             (λ _, Samples.el "p" [Samples.txt "Hello"]) Samples.join_url
             Samples.no_encoding Samples.put_ok "bucket" "region"
             ApiSamples.accept_all "http://h/" Samples.w0); reflexivity.
  - destruct (scrape_url_scrapes_twice Samples.net_up
                (λ _, Samples.el "p" [Samples.txt "Hello"]) Samples.join_url
                Samples.no_encoding Samples.put_ok "bucket" "region"
                ApiSamples.accept_all "http://h/" Samples.w0)
      as (_ & Hok & _).
    apply (Hok {| scrape_message := "Scraping completed successfully";
                  response_markdown_s3_path := markdown_s3_path;
                  final_markdown_s3_path := markdown_s3_path |}
               {| requests := ["http://h/"; "http://h/"];
                  puts := [(markdown_s3_path, content_section "Hello",
                            "text/markdown");
                           (markdown_s3_path, content_section "Hello",
                            "text/markdown")] |}).
    by vm_compute.
Defined.

Lemma fetch_WebScrapMarkdowns_newest_witness :
  ∃ obj,
    obj ∈ [ApiSamples.old_notes; ApiSamples.new_notes; ApiSamples.picture] ∧
    is_markdown obj = true ∧ last_segment (Key obj) = "new.md".
Proof.
  destruct (fetch_WebScrapMarkdowns_newest ApiSamples.bucket ApiSamples.presign
              ApiSamples.str_http "Open Source"
              {| message := "Fetched latest markdown file for Open Source.";
                 file_name := "new.md";
                 download_url :=
                   "https://signed/scraped_data/scraped_os_data/new.md" |})
    as (folder & response & l1 & obj & l2 & _ & Hlist & Hcontents & Hmd & _
        & _ & Hname & _); [by vm_compute|].
  exists obj. injection Hlist as <-. simpl in Hcontents.
  injection Hcontents as Hcontents. split; [|by split].
  rewrite Hcontents. apply elem_of_app. right. by left.
Defined.

Lemma fetch_WebScrapMarkdowns_errors_are_500_witness :
  Api.fetch_WebScrapMarkdowns_from_s3 ApiSamples.bucket ApiSamples.presign
    ApiSamples.str_http "Pdf"
  = Failed 500
      ("Failed to fetch markdown downloads: "
       +:+ "Invalid service type! Choose 'Open Source' or 'Enterprise'.").
Proof.
  apply (fetch_WebScrapMarkdowns_errors_are_500 ApiSamples.bucket
           ApiSamples.presign ApiSamples.str_http "Pdf"); discriminate.
Defined.

Lemma check_pdf_constraints_limits_witness :
  Api.check_pdf_constraints ApiSamples.size_at_limit ApiSamples.five_pages
    ApiSamples.any_message ApiSamples.any_message "report.pdf"
  = inr ({[ "success" := VBool true ]} : gmap string value) ∧
  Api.check_pdf_constraints ApiSamples.size_over_limit ApiSamples.unreadable
    ApiSamples.any_message ApiSamples.any_message "report.pdf"
  = inl (LibraryError
           "unsupported operand type(s) for @: 'dict' and 'function'").
Proof.
  split.
  - apply (check_pdf_constraints_limits ApiSamples.size_at_limit
             ApiSamples.five_pages ApiSamples.any_message
             ApiSamples.any_message "report.pdf").
    exists (5 * 1024 * 1024)%Z, 5%Z. repeat split; [lia|lia].
  - apply (check_pdf_constraints_limits ApiSamples.size_over_limit
             ApiSamples.unreadable ApiSamples.any_message
             ApiSamples.any_message "report.pdf").
    right. by exists "cannot open file".
Defined.

Lemma fetch_latest_markdown_downloads_newest_witness :
  ∃ newest,
    is_markdown newest = true ∧
    ∀ o, listed_markdown ApiSamples.jobs_bucket
           [ApiSamples.job1; ApiSamples.job2] o →
         (LastModified o ≤ LastModified newest)%nat.
Proof.
  destruct (fetch_latest_markdown_downloads_newest ApiSamples.jobs_bucket
              ApiSamples.presign ApiSamples.str_http
              {| downloads_message :=
                   "Fetched Markdown downloads from the latest subfolder: "
                   +:+ ApiSamples.job2;
                 latest_folder := ApiSamples.job2;
                 markdown_download_links :=
                   [ {| link_file_name := "b.md";
                        link_download_url :=
                          "https://signed/" +:+ ApiSamples.job2 +:+ "b.md" |} ]
              |})
    as (response & subfolders & fr & contents & newest & Hlist & Hsubs & _ & _
        & _ & _ & Hmd & Hnew & _); [by vm_compute|].
  exists newest. split; [done|].
  injection Hlist as <-. injection Hsubs as <-. exact Hnew.
Defined.
